(** * Talent Hunter Pro (Curriculos.py): a shallow embedding of the resume
      ranker and the properties of its scoring, filtering and ranking path.

    The Python program reads a folder of PDF/DOCX resumes, extracts their
    text, scores every text against a job profile (keyword count and
    embedding similarity), filters by two thresholds and shows the survivors
    sorted by score.  Everything the program takes from outside (the parsers,
    the embedding model, the file system, the Unicode tables behind [str]
    methods and the regex class [\w]) is a parameter of the model; the code
    of [Curriculos.py] itself is translated function by function. *)

From Stdlib Require Import String Ascii.
From Stdlib Require Import List Bool Arith ZArith NArith QArith Lia.
From Stdlib Require Import Permutation Sorted.
From Stdlib Require Import Floats.SpecFloat.
From Equations Require Import Equations.
Import ListNotations.

Close Scope Q_scope.
Open Scope nat_scope.

Set Implicit Arguments.

(* ===================================================================== *)
(** * Python strings                                                      *)
(* ===================================================================== *)

(** A Python [str] is a sequence of Unicode code points. *)
Definition char := N.
Definition pystr := list char.

(** String literals of the source, as code points. *)
Definition str (s : string) : pystr := map N_of_ascii (list_ascii_of_string s).

(** [a == b] on strings. *)
Fixpoint str_eqb (a b : pystr) : bool :=
  match a, b with
  | [], [] => true
  | x :: a', y :: b' => N.eqb x y && str_eqb a' b'
  | _, _ => false
  end.

(** [s.startswith(p)]. *)
Fixpoint startswith (s p : pystr) {struct p} : bool :=
  match p, s with
  | [], _ => true
  | x :: p', y :: s' => N.eqb x y && startswith s' p'
  | _ :: _, [] => false
  end.

(** [s.endswith(p)]. *)
Definition endswith (s p : pystr) : bool := startswith (rev s) (rev p).

(** [s.endswith((p1, ..., pn))]: the tuple form. *)
Definition endswith_any (s : pystr) (ps : list pystr) : bool :=
  existsb (endswith s) ps.

(** [k in t] on strings: [k] occurs at some offset of [t]. *)
Fixpoint str_in (k t : pystr) : bool :=
  startswith t k ||
  match t with
  | [] => false
  | _ :: t' => str_in k t'
  end.

(** Number of offsets of [t] at which [k] occurs (occurrences may overlap). *)
Fixpoint occurrences (k t : pystr) : nat :=
  (if startswith t k then 1 else 0) +
  match t with
  | [] => 0
  | _ :: t' => occurrences k t'
  end.

(** [sep.join(parts)]. *)
Fixpoint join (sep : pystr) (parts : list pystr) : pystr :=
  match parts with
  | [] => []
  | [p] => p
  | p :: rest => p ++ sep ++ join sep rest
  end.

(** Leading characters satisfying [p] removed. *)
Fixpoint lstrip_by (p : char -> bool) (s : pystr) : pystr :=
  match s with
  | c :: s' => if p c then lstrip_by p s' else s
  | [] => []
  end.

Definition strip_by (p : char -> bool) (s : pystr) : pystr :=
  rev (lstrip_by p (rev (lstrip_by p s))).

(** The Unicode character database behind the [str] methods and the regex
    engine.  It belongs to the Python runtime, not to the program, and is a
    parameter here. *)
Record unicode_db := {
  py_lower : pystr -> pystr;          (* str.lower() *)
  py_isspace : char -> bool;          (* the characters str.strip() removes *)
  py_isword : char -> bool;           (* the regex class \w *)
  py_isprintable : char -> bool       (* str.isprintable(), consulted by repr() *)
}.

(** The database restricted to ASCII: what the runtime's tables say on code
    points below 128 (nothing above is a letter, a space or printable). Used
    to run the model on ASCII inputs. *)
Module AsciiDb.

Definition in_range (lo hi c : N) : bool := N.leb lo c && N.leb c hi.

Definition lower_char (c : char) : char :=
  if in_range 65 90 c then (c + 32)%N else c.

Definition isspace (c : char) : bool :=
  in_range 9 13 c || in_range 28 32 c.

Definition isword (c : char) : bool :=
  in_range 48 57 c || in_range 65 90 c || N.eqb c 95 || in_range 97 122 c.

Definition isprintable (c : char) : bool := in_range 32 126 c.

Definition db : unicode_db :=
  {| py_lower := map lower_char;
     py_isspace := isspace;
     py_isword := isword;
     py_isprintable := isprintable |}.

End AsciiDb.

(* ===================================================================== *)
(** * Runtime services used by the program                                *)
(* ===================================================================== *)

(** ** Exceptions

    A call that may raise returns an [attempt]; [Raised e] carries [str(e)]. *)
Definition exn := pystr.

Inductive attempt (A : Type) : Type :=
| Done (a : A)
| Raised (e : exn).
Arguments Done {A} a.
Arguments Raised {A} e.

Definition bind {A B : Type} (c : attempt A) (k : A -> attempt B) : attempt B :=
  match c with
  | Done a => k a
  | Raised e => Raised e
  end.

Notation "x <- c ;; k" := (bind c (fun x => k))
  (at level 61, c at next level, right associativity).

(** ** The regex [\w{4,}]

    [span p s] is the longest prefix of [s] whose characters satisfy [p],
    with what follows it: the greedy match of [p*] at the start of [s]. *)
Fixpoint span (p : char -> bool) (s : pystr) : pystr * pystr :=
  match s with
  | c :: s' =>
      if p c then let (w, r) := span p s' in (c :: w, r) else ([], s)
  | [] => ([], [])
  end.

(** [re.findall] for the pattern [[p]{n,}]: scan left to right; at each
    position the greedy match takes the whole run of [p]-characters that
    starts there; when the run has at least [n] characters it is a match and
    the scan resumes after it, otherwise the scan moves one character on. *)
Equations? re_findall_run (p : char -> bool) (n : nat) (s : pystr) : list pystr
  by wf (length s) lt :=
  re_findall_run p n [] := [];
  re_findall_run p n (c :: s') :=
    if p c then
      if n <=? length (c :: fst (span p s'))
      then (c :: fst (span p s')) :: re_findall_run p n (snd (span p s'))
      else re_findall_run p n s'
    else re_findall_run p n s'.
Proof.
  all: try (simpl; lia).
  assert (H : forall t : pystr, length (snd (span p t)) <= length t).
  { induction t as [|d t IH]; simpl; [lia|].
    destruct (p d); [|simpl; lia].
    destruct (span p t) as [w r]; simpl in *; lia. }
  specialize (H s'). simpl. lia.
Qed.

(** ** [repr] of a list of strings, which is what an f-string prints for it *)

Definition hex_digit (d : N) : char :=
  if N.ltb d 10 then (48 + d)%N else (87 + d)%N.

Fixpoint hex (width : nat) (n : N) : pystr :=
  match width with
  | O => []
  | S w => hex w (n / 16)%N ++ [hex_digit (n mod 16)%N]
  end.

Definition apostrophe : char := 39%N.
Definition double_quote : char := 34%N.
Definition backslash : char := 92%N.

(** The quote [repr] chooses: double quotes only when the string has an
    apostrophe and no double quote. *)
Definition repr_quote (s : pystr) : char :=
  if existsb (N.eqb apostrophe) s && negb (existsb (N.eqb double_quote) s)
  then double_quote else apostrophe.

Section Unicode.

Variable U : unicode_db.

(** [s.lower()]. *)
Definition lower (s : pystr) : pystr := py_lower U s.

(** [s.strip()]. *)
Definition strip (s : pystr) : pystr := strip_by (py_isspace U) s.

(** One character of [repr(s)] inside the quotes [q]. *)
Definition repr_char (q c : char) : pystr :=
  if N.eqb c q || N.eqb c backslash then [backslash; c]
  else if N.eqb c 9 then [backslash; 116%N]
  else if N.eqb c 10 then [backslash; 110%N]
  else if N.eqb c 13 then [backslash; 114%N]
  else if N.ltb c 32 || N.eqb c 127 then [backslash; 120%N] ++ hex 2 c
  else if N.ltb c 127 then [c]
  else if py_isprintable U c then [c]
  else if N.leb c 255 then [backslash; 120%N] ++ hex 2 c
  else if N.leb c 65535 then [backslash; 117%N] ++ hex 4 c
  else [backslash; 85%N] ++ hex 8 c.

(** [repr(s)] for a string. *)
Definition repr_str (s : pystr) : pystr :=
  let q := repr_quote s in
  [q] ++ flat_map (repr_char q) s ++ [q].

(** [repr(l)] for a list of strings; [f"{l}"] is the same text. *)
Definition repr_list (l : list pystr) : pystr :=
  str "[" ++ join (str ", ") (map repr_str l) ++ str "]".

(** [re.findall(r'\w{4,}', s)]. *)
Definition re_findall_w4 (s : pystr) : list pystr :=
  re_findall_run (py_isword U) 4 s.

(** Line 107 of [main]:
    [[job_title] + [word for word in re.findall(r'\w{4,}', job_desc) if len(word) > 3]]. *)
Definition job_keywords (job_title job_desc : pystr) : list pystr :=
  [job_title] ++
  filter (fun word => 3 <? length word) (re_findall_w4 job_desc).

End Unicode.

(** ** Floats

    A Python [float] is an IEEE 754 binary64 value; [spec_float] has them all
    (and the comparisons below are the IEEE ones: false on NaN). *)
Definition pyfloat := spec_float.

(** [a >= b]. *)
Definition float_ge (a b : pyfloat) : bool := SFleb b a.

(** [a < b], the only comparison [sorted] makes. *)
Definition float_lt (a b : pyfloat) : bool := SFltb a b.

(** [a == b]. *)
Definition float_eq (a b : pyfloat) : bool := SFeqb a b.

(** ** The builtins [sum] and [sorted] *)

(** [sum(xs)]: start from 0 and add from the left. *)
Definition py_sum (xs : list Z) : Z := fold_left Z.add xs 0%Z.

Section PySorted.

Variable A : Type.
Variable key : A -> pyfloat.

(** Insertion into a sorted prefix: [x] goes in front of the first element
    that is strictly greater, so after every element equal to it. *)
Fixpoint insert (x : A) (l : list A) : list A :=
  match l with
  | [] => [x]
  | y :: l' => if float_lt (key x) (key y) then x :: l else y :: insert x l'
  end.

(** The stable ascending sort by [key], using [<] only. Python sorts by a
    stable merge sort; on keys that [<] orders totally, every stable sort
    returns the same list, the one computed here by insertion. *)
Definition sort_stable (l : list A) : list A :=
  fold_left (fun prefix x => insert x prefix) l [].

(** [sorted(l, key=key, reverse=reverse)]. With [reverse=True] the list is
    reversed, sorted and reversed again, which keeps the sort stable. *)
Definition sorted (reverse : bool) (l : list A) : list A :=
  if reverse then rev (sort_stable (rev l)) else sort_stable l.

End PySorted.

(** ** Paths ([os.path] on a POSIX system) *)

Definition slash : char := 47%N.

(** [os.path.join(a, b)]. *)
Definition path_join (a b : pystr) : pystr :=
  if startswith b [slash] then b
  else match a with
       | [] => b
       | _ => if endswith a [slash] then a ++ b else a ++ [slash] ++ b
       end.

(** [os.path.basename(p)]: what follows the last slash. *)
Definition basename (p : pystr) : pystr :=
  rev (fst (span (fun c => negb (N.eqb c slash)) (rev p))).

(** ** The outside world of one run *)

Section Ranker.

Variable U : unicode_db.

(** Embeddings are tensors of the model library. *)
Variable tensor : Type.

(** [util.cos_sim(a, b).item()]. *)
Variable cos_sim : tensor -> tensor -> pyfloat.

(** A loaded [SentenceTransformer]: [model.encode(text, convert_to_tensor=True)]. *)
Record sentence_model := { encode : pystr -> tensor }.

(** The file system and the document parsers, fixed during a run. *)
Record world := {
  (* SentenceTransformer(name) *)
  SentenceTransformer : pystr -> attempt sentence_model;
  (* os.path.exists(path) *)
  path_exists : pystr -> bool;
  (* os.listdir(path) *)
  listdir : pystr -> attempt (list pystr);
  (* pdfplumber.open(path).pages with each page's extract_text(),
     [None] for a page without text *)
  pdf_pages : pystr -> attempt (list (option pystr));
  (* Document(path).paragraphs with each paragraph's text *)
  docx_paragraphs : pystr -> attempt (list pystr);
  (* nltk's word_tokenize(text) *)
  word_tokenize : pystr -> attempt (list pystr)
}.

(** The widgets' values in one script run. *)
Record inputs := {
  min_score : pyfloat;       (* slider 0.0 .. 1.0, default 0.3 *)
  min_matches : Z;           (* slider 0 .. 20, default 2 *)
  job_title : pystr;
  job_desc : pystr;
  folder_path : pystr;
  button : bool              (* the analyse button was clicked *)
}.

(** Texts shown to the user. *)
Inductive message :=
| msg_model_failed (e : exn)           (* "Falha ao carregar o modelo: {e}" *)
| msg_process_failed (name : pystr) (e : exn)  (* "Erro ao processar {name}: {e}" *)
| msg_no_files                         (* "Nenhum arquivo PDF ou DOCX encontrado na pasta!" *)
| msg_none_qualified                   (* "Nenhum curriculo atendeu aos criterios minimos!" *)
| msg_found (n : nat)                  (* "{n} curriculos relevantes encontrados" *)
| msg_analysis_failed (e : exn)        (* "Erro durante a analise: {e}" *)
| msg_folder_missing.                  (* "A pasta especificada nao existe!" *)

(** What a run does, in order: the streamlit calls, and the calls of the
    program's own [process_file] and [analyze_resume]. *)
Inductive event :=
| st_error (m : message)
| st_warning (m : message)
| st_success (m : message)
| st_progress (value : Q)
| call_process_file (file_path file_type : pystr)
| call_analyze_resume (filename text : pystr).

(** One entry of [results]: the dict appended at lines 130-137. *)
Record entry := {
  Arquivo : pystr;
  Caminho : pystr;
  Tipo : pystr;
  Texto : pystr;
  Score : pyfloat;
  Matches : Z
}.

Variable W : world.

(** [load_models()]: the model, or [None] after showing the failure. *)
Definition load_models : option sentence_model * list event :=
  match SentenceTransformer W (str "paraphrase-multilingual-MiniLM-L12-v2") with
  | Done model => (Some model, [])
  | Raised e => (None, [st_error (msg_model_failed e)])
  end.

(** [process_file(file_path, file_type)]: the [try] body, then the handler. *)
Definition process_file_body (file_path file_type : pystr) : attempt pystr :=
  text <- (if str_eqb file_type (str "pdf")
           then pages <- pdf_pages W file_path ;;
                Done (join [10%N]
                        (map (fun page => match page with
                                          | Some t => t
                                          | None => []
                                          end) pages))
           else paragraphs <- docx_paragraphs W file_path ;;
                Done (join [10%N]
                        (filter (fun p => match strip U p with
                                          | [] => false
                                          | _ => true
                                          end) paragraphs))) ;;
  match text with
  | [] => Done []
  | _ => tokens <- word_tokenize W text ;; Done (strip U text)
  end.

Definition process_file (file_path file_type : pystr) : pystr * list event :=
  match process_file_body file_path file_type with
  | Done text => (text, [])
  | Raised e => ([], [st_warning (msg_process_failed (basename file_path) e)])
  end.

(** [analyze_resume(text, job_keywords)]; [model] is the global that [main]
    sets before any call. *)
Definition analyze_resume (model : sentence_model)
    (text : pystr) (job_keywords : list pystr) : Z * pyfloat :=
  let job_text := repr_list U job_keywords in
  let job_embedding := encode model job_text in
  let resume_embedding := encode model text in
  let score := cos_sim job_embedding resume_embedding in
  let matches :=
    py_sum (map (fun _ => 1%Z)
                (filter (fun keyword => str_in keyword text) job_keywords)) in
  (matches, score).

(** ** The batch loop of [main] (lines 116-139) *)

(** The loop's variables: [results], and the trace of what was done. *)
Record loop_state := {
  results : list entry;
  log : list event
}.

Definition emit (es : list event) (st : loop_state) : loop_state :=
  {| results := results st; log := log st ++ es |}.

Definition append (r : entry) (st : loop_state) : loop_state :=
  {| results := results st ++ [r]; log := log st |}.

(** [enumerate(l)]. *)
Definition enumerate {A : Type} (l : list A) : list (nat * A) :=
  combine (seq 0 (length l)) l.

(** Truth value of a string. *)
Definition truthy (s : pystr) : bool :=
  match s with
  | [] => false
  | _ => true
  end.

(** The value passed to [progress_bar.progress]: [(i + 1) / total], as the
    exact rational in lowest terms. *)
Definition fraction (i total : nat) : Q :=
  Qred (Z.of_nat (i + 1) # Pos.of_nat total).

(** Line 119: ["pdf" if filename.lower().endswith('.pdf') else "docx"]. *)
Definition file_type_of (filename : pystr) : pystr :=
  if endswith (lower U filename) (str ".pdf") then str "pdf" else str "docx".

(** One iteration, for the item [(i, filename)] of [enumerate(valid_files)];
    [total] is [len(valid_files)]. Each [continue] returns the state as it
    is at that point. *)
Definition loop_body (inp : inputs) (model : sentence_model)
    (keywords : list pystr) (total : nat)
    (st : loop_state) (item : nat * pystr) : loop_state :=
  let (i, filename) := item in
  let file_path := path_join (folder_path inp) filename in
  let file_type := file_type_of filename in
  let (text, warnings) := process_file file_path file_type in
  let st := emit (call_process_file file_path file_type :: warnings) st in
  if negb (truthy text) then st
  else
    let (matches, score) := analyze_resume model text keywords in
    let st := emit [call_analyze_resume filename text] st in
    if (matches <? min_matches inp)%Z then st
    else
      let st :=
        if float_ge score (min_score inp)
        then append {| Arquivo := filename;
                       Caminho := file_path;
                       Tipo := file_type;
                       Texto := text;
                       Score := score;
                       Matches := matches |} st
        else st in
      emit [st_progress (fraction i total)] st.

(** ** [main] *)

(** How a run ends. *)
Inductive verdict :=
| ModelLoadFailure
| NotTriggered
| FolderNotFound
| NoCandidateFiles
| NoQualifyingCandidates
| Ranked (ranking : list entry)
| UnexpectedRuntimeFailure (e : exn).

(** [f.lower().endswith(('.pdf', '.docx'))]. *)
Definition qualifies (f : pystr) : bool :=
  endswith_any (lower U f) [str ".pdf"; str ".docx"].

(** The [try] block of [main] (lines 106-161): the trace and the verdict. *)
Definition analyse (inp : inputs) (model : sentence_model) : list event * verdict :=
  let keywords := job_keywords U (job_title inp) (job_desc inp) in
  match listdir W (folder_path inp) with
  | Raised e => ([st_error (msg_analysis_failed e)], UnexpectedRuntimeFailure e)
  | Done names =>
      let valid_files := filter qualifies names in
      match valid_files with
      | [] => ([st_error msg_no_files], NoCandidateFiles)
      | _ =>
          let st := fold_left (loop_body inp model keywords (length valid_files))
                              (enumerate valid_files)
                              {| results := []; log := [st_progress 0] |} in
          match results st with
          | [] => (log st ++ [st_warning msg_none_qualified], NoQualifyingCandidates)
          | _ =>
              let ranked := sorted Score true (results st) in
              (log st ++ [st_success (msg_found (length ranked))], Ranked ranked)
          end
      end
  end.

Definition main (inp : inputs) : list event * verdict :=
  match load_models with
  | (None, shown) => (shown, ModelLoadFailure)
  | (Some model, shown) =>
      if button inp && truthy (job_title inp) && truthy (folder_path inp)
         && path_exists W (folder_path inp)
      then let (trace, v) := analyse inp model in (shown ++ trace, v)
      else if negb (path_exists W (folder_path inp))
      then (shown ++ [st_error msg_folder_missing], FolderNotFound)
      else (shown, NotTriggered)
  end.

(** The ranked list a run shows: empty unless the run ends in [Ranked]. *)
Definition ranked_list (v : verdict) : list entry :=
  match v with
  | Ranked ranking => ranking
  | _ => []
  end.

End Ranker.

(* ===================================================================== *)
(** * Notions used to state the properties                                *)
(* ===================================================================== *)

(** Not a NaN. *)
Definition is_number (x : pyfloat) : bool :=
  match x with
  | S754_nan => false
  | _ => true
  end.

Section Orders.

Variable A : Type.
Variable key : A -> pyfloat.

(** Keys in non-decreasing order. *)
Definition ascending (l : list A) : Prop :=
  StronglySorted (fun x y => float_ge (key y) (key x) = true) l.

(** Keys in non-increasing order. *)
Definition descending (l : list A) : Prop :=
  StronglySorted (fun x y => float_ge (key x) (key y) = true) l.

(** No key is a NaN. *)
Definition numbers (l : list A) : Prop :=
  Forall (fun x => is_number (key x) = true) l.

(** The entries whose key equals [s], in list order. *)
Definition with_key (s : pyfloat) (l : list A) : list A :=
  filter (fun x => float_eq (key x) s) l.

End Orders.

(** The first component of [analyze_resume]'s result. *)
Definition matches_of (U : unicode_db) (tensor : Type)
    (cos_sim : tensor -> tensor -> pyfloat) (model : sentence_model tensor)
    (text : pystr) (keywords : list pystr) : Z :=
  fst (analyze_resume U cos_sim model text keywords).

Section PerFile.

Variable U : unicode_db.
Variable tensor : Type.
Variable cos_sim : tensor -> tensor -> pyfloat.
Variable W : world tensor.
Variable inp : inputs.
Variable model : sentence_model tensor.
Variable keywords : list pystr.

(** The path, the text, the score and the count of one listed file. *)
Definition path_of (filename : pystr) : pystr :=
  path_join (folder_path inp) filename.

Definition text_of (filename : pystr) : pystr :=
  fst (process_file U W (path_of filename) (file_type_of U filename)).

Definition count_of (filename : pystr) : Z :=
  fst (analyze_resume U cos_sim model (text_of filename) keywords).

Definition score_of (filename : pystr) : pyfloat :=
  snd (analyze_resume U cos_sim model (text_of filename) keywords).

(** The file gets an entry: its text is not empty and both thresholds hold. *)
Definition passes (filename : pystr) : bool :=
  truthy (text_of filename)
  && negb (count_of filename <? min_matches inp)%Z
  && float_ge (score_of filename) (min_score inp).

(** The iteration for the file reaches the update of the progress bar:
    neither [continue] is taken. *)
Definition reports (filename : pystr) : bool :=
  truthy (text_of filename)
  && negb (count_of filename <? min_matches inp)%Z.

(** The entry the file gets. *)
Definition entry_of (filename : pystr) : entry :=
  {| Arquivo := filename;
     Caminho := path_of filename;
     Tipo := file_type_of U filename;
     Texto := text_of filename;
     Score := score_of filename;
     Matches := count_of filename |}.

End PerFile.

Section PerRun.

Variable U : unicode_db.
Variable tensor : Type.
Variable cos_sim : tensor -> tensor -> pyfloat.
Variable W : world tensor.

(** The name [load_models] asks for. *)
Definition model_name : pystr := str "paraphrase-multilingual-MiniLM-L12-v2".

(** The entries the batch loop leaves in [results] for a listing [names]:
    the files that qualify and pass, in listing order. *)
Definition accepted (inp : inputs) (model : sentence_model tensor)
    (names : list pystr) : list entry :=
  let keywords := job_keywords U (job_title inp) (job_desc inp) in
  map (entry_of U cos_sim W inp model keywords)
      (filter (passes U cos_sim W inp model keywords) (filter (qualifies U) names)).

(** Both thresholds hold for the entry. *)
Definition meets (inp : inputs) (r : entry) : Prop :=
  (min_matches inp <= Matches r)%Z /\ float_ge (Score r) (min_score inp) = true.

(** The analysis is triggered: button clicked, title and folder given, and
    the folder exists. *)
Definition triggered (inp : inputs) : bool :=
  button inp && truthy (job_title inp) && truthy (folder_path inp)
  && path_exists W (folder_path inp).

End PerRun.

(** The trace restricted to the values given to the progress bar. *)
Definition progress_values (trace : list event) : list Q :=
  flat_map (fun ev => match ev with
                      | st_progress value => [value]
                      | _ => []
                      end) trace.

(** ** Keyword lists in words *)

(** The complement of a character class. *)
Definition non (p : char -> bool) (c : char) : bool := negb (p c).

(** Splitting at separators: [cur] holds, reversed, the characters read
    since the last separator. *)
Fixpoint split_at (sep : char -> bool) (s : pystr) (cur : pystr) : list pystr :=
  match s with
  | [] => [rev cur]
  | c :: s' =>
      if sep c then rev cur :: split_at sep s' [] else split_at sep s' (c :: cur)
  end.

(** The tokens of [s] delimited by the characters of [sep]: the non-empty
    pieces between separators, left to right, repeats included. *)
Definition tokens (sep : char -> bool) (s : pystr) : list pystr :=
  filter truthy (split_at sep s []).

(** The keyword list as the specification words it: the title, then the
    whitespace-delimited tokens of the description that have at least four
    characters. *)
Definition whitespace_keywords (U : unicode_db) (title desc : pystr) : list pystr :=
  title :: filter (fun w => 4 <=? length w) (tokens (py_isspace U) desc).

(** The keyword list in terms of word characters: the title, then the
    maximal runs of [\w] characters of the description that have at least
    four characters. *)
Definition word_run_keywords (U : unicode_db) (title desc : pystr) : list pystr :=
  title :: filter (fun w => 4 <=? length w) (tokens (non (py_isword U)) desc).

(** A printable ASCII character other than the apostrophe and the
    backslash: [repr] copies it. *)
Definition plain (c : char) : bool :=
  N.leb 32 c && N.ltb c 127 && negb (N.eqb c apostrophe) && negb (N.eqb c backslash).

(* ===================================================================== *)
(** * Concrete worlds                                                     *)
(* ===================================================================== *)

Module Demo.

Definition zero : pyfloat := S754_zero false.                            (* 0.0 *)
Definition half : pyfloat := S754_finite false 4503599627370496 (-53).   (* 0.5 *)
Definition one : pyfloat := S754_finite false 4503599627370496 (-52).    (* 1.0 *)

(** A stand-in for the sentence model: a text is its own embedding. *)
Definition model : sentence_model pystr := {| encode := fun text => text |}.

Fixpoint lookup {A : Type} (k : pystr) (table : list (pystr * A)) (default : A) : A :=
  match table with
  | [] => default
  | (k', v) :: table' => if str_eqb k k' then v else lookup k table' default
  end.

(** A stand-in similarity: the score of a resume text is read from a table,
    and is 0.5 for a text that the table does not list. *)
Definition similarity (table : list (pystr * pyfloat)) (job resume : pystr) : pyfloat :=
  lookup resume table half.

(** A stand-in similarity that tells the job texts apart: 1.0 for the job
    text "Dev", 0.0 for any other. *)
Definition probe (job resume : pystr) : pyfloat :=
  if str_eqb job (str "Dev") then one else zero.

Definition folder : pystr := str "/cv".

(** A file system with one folder, [folder], that holds the given PDFs
    (name and what the parser yields) and other files (names only). *)
Definition disk (pdfs : list (pystr * attempt (list (option pystr))))
    (others : list pystr) : world pystr :=
  {| SentenceTransformer := fun _ => Done model;
     path_exists := fun p => str_eqb p folder;
     listdir := fun p => if str_eqb p folder
                         then Done (map fst pdfs ++ others)
                         else Raised (str "No such file or directory");
     pdf_pages := fun p =>
       lookup p (map (fun f => (path_join folder (fst f), snd f)) pdfs)
              (Raised (str "No such file or directory"));
     docx_paragraphs := fun _ => Raised (str "Package not found");
     word_tokenize := fun _ => Done [] |}.

(** The widgets for the job "Dev" without description, with thresholds 1
    and 0.0, and the button clicked. *)
Definition dev_inputs : inputs :=
  {| min_score := zero;
     min_matches := 1%Z;
     job_title := str "Dev";
     job_desc := [];
     folder_path := folder;
     button := true |}.

Definition page (text : string) : option pystr := Some (str text).

(** One PDF whose text has the title three times. *)
Definition one_pdf : world pystr :=
  disk [(str "cv.pdf", Done [page "Dev Dev Dev"])] [].

(** Two PDFs; the second has a single page without text. *)
Definition second_empty : world pystr :=
  disk [(str "a.pdf", Done [page "Dev"]); (str "b.pdf", Done [None])] [].

(** Three PDFs, the second scoring higher than the two others, which tie. *)
Definition three_pdfs : world pystr :=
  disk [(str "a.pdf", Done [page "Dev A"]);
        (str "b.pdf", Done [page "Dev B"]);
        (str "c.pdf", Done [page "Dev C"])] [].

Definition b_scores_one : list (pystr * pyfloat) := [(str "Dev B", one)].

(** Two PDFs; the parser raises on the first. *)
Definition first_broken : world pystr :=
  disk [(str "a.pdf", Raised (str "No /Root object"));
        (str "b.pdf", Done [page "Dev"])] [].

(** A folder without any PDF or DOCX. *)
Definition no_resumes : world pystr :=
  disk [] [str "notes.txt"; str "photo.PNG"].

End Demo.

(* ===================================================================== *)
(** * The rest of the program                                             *)
(* ===================================================================== *)

(** ** [normalize_text] (lines 23-25) *)

(** [s.encode('ASCII', 'ignore').decode('ASCII')]: the code points below
    128 are kept, the others dropped. *)
Definition ascii_ignore (s : pystr) : pystr :=
  filter (fun c => N.ltb c 128) s.

Section Normalize.

Variable U : unicode_db.

(** [unicodedata.normalize('NFKD', text)]: a table of the runtime. *)
Variable nfkd : pystr -> pystr.

Definition normalize_text (text : pystr) : pystr :=
  let text := ascii_ignore (nfkd text) in
  lower U text.

End Normalize.

(** Every code point is below 128. *)
Definition is_ascii (s : pystr) : bool := forallb (fun c => N.ltb c 128) s.

(** What the runtime's tables do on ASCII text: [str.lower] maps A-Z to
    a-z and keeps the rest, and NFKD changes nothing. *)
Definition lowers_ascii (U : unicode_db) : Prop :=
  forall s, is_ascii s = true -> py_lower U s = map AsciiDb.lower_char s.

Definition keeps_ascii (nfkd : pystr -> pystr) : Prop :=
  forall s, is_ascii s = true -> nfkd s = s.

(** An ASCII character that is not an upper-case letter. *)
Definition ascii_not_upper (c : char) : bool :=
  N.ltb c 128 && negb (AsciiDb.in_range 65 90 c).

(** ** [render_document] (lines 67-83) *)

Section Render.

(** A [PIL.Image]. *)
Variable image : Type.

(** The services [render_document] calls. *)
Record renderer := {
  (* fitz.open(path).load_page(0).get_pixmap(dpi=130), turned into an image
     by Image.frombytes *)
  first_page_image : pystr -> attempt image;
  (* tempfile.NamedTemporaryFile(suffix=suffix, delete=False): the name of
     the file it creates *)
  named_temporary_file : pystr -> attempt pystr;
  (* os.unlink(path) *)
  os_unlink : pystr -> attempt unit
}.

(** What a call of [render_document] does besides returning. *)
Inductive render_event :=
| render_warning (e : exn)          (* "Erro ao renderizar documento: {e}" *)
| page_rendered (path : pystr)
| temp_created (path : pystr)
| temp_unlinked (path : pystr).

Variable R : renderer.

(** The module binds the name [convert] nowhere (no definition, no
    import), so the call at line 77 raises [NameError]. *)
Definition convert (source target : pystr) : attempt unit :=
  Raised (str "name 'convert' is not defined").

(** [render_document(file_path, "pdf")]: the first branch and the handler. *)
Definition render_pdf (file_path : pystr) : option image * list render_event :=
  match first_page_image R file_path with
  | Done img => (Some img, [page_rendered file_path])
  | Raised e => (None, [render_warning e])
  end.

(** [render_document(file_path, file_type)]. Its one recursive call has the
    type "pdf", which is [render_pdf]. *)
Definition render_document (file_path file_type : pystr)
    : option image * list render_event :=
  if str_eqb file_type (str "pdf") then render_pdf file_path
  else
    match named_temporary_file R (str ".pdf") with
    | Raised e => (None, [render_warning e])
    | Done temp_path =>
        match convert file_path temp_path with
        | Raised e => (None, [temp_created temp_path; render_warning e])
        | Done _ =>
            let (img, events) := render_pdf temp_path in
            match os_unlink R temp_path with
            | Raised e =>
                (None, temp_created temp_path :: events ++ [render_warning e])
            | Done _ =>
                (img, temp_created temp_path :: events ++ [temp_unlinked temp_path])
            end
        end
    end.

End Render.

(** ** Notions for the traces of runs *)



Section StepTrace.

Variable U : unicode_db.
Variable tensor : Type.
Variable cos_sim : tensor -> tensor -> pyfloat.
Variable W : world tensor.
Variable inp : inputs.
Variable model : sentence_model tensor.
Variable keywords : list pystr.
Variable total : nat.

(** What one iteration of the batch loop adds to the trace. *)
Definition step_trace (item : nat * pystr) : list event :=
  let (i, filename) := item in
  call_process_file (path_of inp filename) (file_type_of U filename)
  :: snd (process_file U W (path_of inp filename) (file_type_of U filename))
  ++ (if truthy (text_of U W inp filename)
      then call_analyze_resume filename (text_of U W inp filename)
           :: (if reports U cos_sim W inp model keywords filename
               then [st_progress (fraction i total)]
               else [])
      else []).

End StepTrace.

(** Neither end of the string is a character of [p]. *)
Definition trimmed (p : char -> bool) (s : pystr) : Prop :=
  (forall c r, s = c :: r -> p c = false)
  /\ (forall r c, s = r ++ [c] -> p c = false).

(** A page without text: [extract_text()] gave [None] or the empty string. *)
Definition blank_page (page : option pystr) : bool :=
  match page with
  | None => true
  | Some [] => true
  | Some (_ :: _) => false
  end.

(** The two inputs differ at most in their thresholds. *)
Definition same_request (inp inp' : inputs) : Prop :=
  button inp = button inp'
  /\ job_title inp = job_title inp'
  /\ job_desc inp = job_desc inp'
  /\ folder_path inp = folder_path inp'.

Module Thresholds.

(** The widgets of [Demo.dev_inputs] with the score threshold at 1.0. *)
Definition strict : inputs :=
  {| min_score := Demo.one;
     min_matches := 1%Z;
     job_title := str "Dev";
     job_desc := [];
     folder_path := Demo.folder;
     button := true |}.

(** The same widgets with the button not clicked and a folder that does
    not exist. *)
Definition idle_missing : inputs :=
  {| min_score := Demo.zero;
     min_matches := 1%Z;
     job_title := str "Dev";
     job_desc := [];
     folder_path := str "/nowhere";
     button := false |}.

End Thresholds.

Module Preview.

(** Rendering services that all succeed; the temporary file gets a fixed
    name with the suffix asked for. *)
Definition services : renderer unit :=
  {| first_page_image := fun _ => Done tt;
     named_temporary_file := fun suffix => Done (str "/tmp/tmpk3x9" ++ suffix);
     os_unlink := fun _ => Done tt |}.

End Preview.

(* ===================================================================== *)
(** * Runs of the model on concrete inputs                                *)
(* ===================================================================== *)

Example str_in_ex : str_in (str "Dados") (str "Analista de Dados") = true.
Proof. reflexivity. Qed.

Example endswith_ex :
  endswith_any (py_lower AsciiDb.db (str "CV.PDF")) [str ".pdf"; str ".docx"] = true.
Proof. reflexivity. Qed.

Example job_keywords_ex :
  job_keywords AsciiDb.db (str "Dev") (str "SQL and Python, SQL!")
  = [str "Dev"; str "Python"].
Proof. reflexivity. Qed.

Example repr_list_ex :
  repr_list AsciiDb.db [str "Dev"; str "a\b"] = str "['Dev', 'a\\b']".
Proof. reflexivity. Qed.

Example demo_one_pdf_run :
  main AsciiDb.db (Demo.similarity []) Demo.one_pdf Demo.dev_inputs
  = ([st_progress 0;
      call_process_file (str "/cv/cv.pdf") (str "pdf");
      call_analyze_resume (str "cv.pdf") (str "Dev Dev Dev");
      st_progress 1;
      st_success (msg_found 1)],
     Ranked [ {| Arquivo := str "cv.pdf";
                 Caminho := str "/cv/cv.pdf";
                 Tipo := str "pdf";
                 Texto := str "Dev Dev Dev";
                 Score := Demo.half;
                 Matches := 1 |} ]).
Proof. reflexivity. Qed.

Example demo_three_pdfs_ranking :
  map Arquivo (ranked_list (snd (main AsciiDb.db (Demo.similarity Demo.b_scores_one)
                                   Demo.three_pdfs Demo.dev_inputs)))
  = [str "b.pdf"; str "a.pdf"; str "c.pdf"].
Proof. reflexivity. Qed.

Example demo_first_broken_run :
  main AsciiDb.db (Demo.similarity []) Demo.first_broken Demo.dev_inputs
  = ([st_progress 0;
      call_process_file (str "/cv/a.pdf") (str "pdf");
      st_warning (msg_process_failed (str "a.pdf") (str "No /Root object"));
      call_process_file (str "/cv/b.pdf") (str "pdf");
      call_analyze_resume (str "b.pdf") (str "Dev");
      st_progress 1;
      st_success (msg_found 1)],
     Ranked [ {| Arquivo := str "b.pdf";
                 Caminho := str "/cv/b.pdf";
                 Tipo := str "pdf";
                 Texto := str "Dev";
                 Score := Demo.half;
                 Matches := 1 |} ]).
Proof. reflexivity. Qed.

Lemma span_rest_length p s : length (snd (span p s)) <= length s.
Proof.
  induction s as [|c s IH]; simpl; [lia|].
  destruct (p c); [|simpl; lia].
  destruct (span p s) as [w r]; simpl in *; lia.
Qed.

(* ===================================================================== *)
(** * Strings: substring test                                             *)
(* ===================================================================== *)

Lemma startswith_app (s p : pystr) :
  startswith s p = true <-> exists r, s = p ++ r.
Proof.
  revert s; induction p as [|x p IH]; intros s; simpl.
  - split; [intros _; now exists s | reflexivity].
  - destruct s as [|y s].
    + split; [discriminate | intros [r Hr]; discriminate].
    + rewrite andb_true_iff, N.eqb_eq, IH. split.
      * intros [-> [r ->]]. now exists r.
      * intros [r Hr]. injection Hr as -> ->. split; [reflexivity | now exists r].
Qed.

(** [k in t] holds exactly when [t] is [pre ++ k ++ post]. *)
Lemma str_in_substring (k t : pystr) :
  str_in k t = true <-> exists pre post, t = pre ++ k ++ post.
Proof.
  induction t as [|c t IH].
  - simpl. rewrite orb_false_r, startswith_app. split.
    + intros [r Hr]. now exists [], r.
    + intros [pre [post H]]. destruct pre; [now exists post | discriminate].
  - cbn [str_in]. rewrite orb_true_iff, startswith_app, IH. split.
    + intros [[r Hr] | [pre [post H]]].
      * now exists [], r.
      * exists (c :: pre), post. now rewrite H.
    + intros [[|d pre] [post H]].
      * left. now exists post.
      * right. injection H as _ H. now exists pre, post.
Qed.

Lemma occurrences_str_in (k t : pystr) :
  0 < occurrences k t -> str_in k t = true.
Proof.
  induction t as [|c t IH]; cbn [occurrences str_in].
  - destruct (startswith [] k); simpl; [reflexivity | lia].
  - destruct (startswith (c :: t) k); simpl; [reflexivity |].
    exact IH.
Qed.

(* ===================================================================== *)
(** * Counting                                                            *)
(* ===================================================================== *)

Lemma py_sum_ones {A : Type} (l : list A) :
  py_sum (map (fun _ => 1%Z) l) = Z.of_nat (length l).
Proof.
  unfold py_sum.
  enough (H : forall acc, fold_left Z.add (map (fun _ : A => 1%Z) l) acc
                          = (acc + Z.of_nat (length l))%Z) by (rewrite H; lia).
  induction l as [|x l IH]; intros acc; simpl length; simpl map; simpl fold_left.
  - lia.
  - rewrite IH. lia.
Qed.

(** Counting the positions of a list whose element passes [f] is counting
    the elements that pass. *)
Lemma count_positions {A : Type} (f : A -> bool) (d : A) (l : list A) (a : nat) :
  length (filter (fun i => f (nth (i - a) l d)) (seq a (length l)))
  = length (filter f l).
Proof.
  revert a; induction l as [|x l IH]; intros a; [reflexivity|].
  cbn [length seq filter].
  assert (E : filter (fun i => f (nth (i - a) (x :: l) d)) (seq (S a) (length l))
              = filter (fun i => f (nth (i - S a) l d)) (seq (S a) (length l))).
  { apply filter_ext_in. intros i Hi. apply in_seq in Hi.
    replace (i - a) with (S (i - S a)) by lia. reflexivity. }
  rewrite E, Nat.sub_diag. cbn [nth].
  destruct (f x); cbn [length]; now rewrite IH.
Qed.

Section Scorer.

Variable U : unicode_db.
Variable tensor : Type.
Variable cos_sim : tensor -> tensor -> pyfloat.
Variable model : sentence_model tensor.

Lemma matches_length (text : pystr) (keywords : list pystr) :
  matches_of U cos_sim model text keywords
  = Z.of_nat (length (filter (fun keyword => str_in keyword text) keywords)).
Proof. unfold matches_of, analyze_resume; simpl. apply py_sum_ones. Qed.

(** C10: the match count is the number of positions of the keyword list
    whose keyword occurs as a substring of the text; a position adds 1 or 0
    (however often its keyword occurs), so the count is at most the length
    of the list. *)
Theorem match_count_positions (text : pystr) (keywords : list pystr) :
  matches_of U cos_sim model text keywords
  = Z.of_nat (length (filter (fun i => str_in (nth i keywords []) text)
                             (seq 0 (length keywords))))
  /\ (forall k : pystr,
        str_in k text = true <-> exists pre post, text = pre ++ k ++ post)
  /\ (forall (k : pystr) (ks : list pystr),
        matches_of U cos_sim model text (k :: ks)
        = ((if str_in k text then 1 else 0) + matches_of U cos_sim model text ks)%Z)
  /\ (0 <= matches_of U cos_sim model text keywords <= Z.of_nat (length keywords))%Z.
Proof.
  split; [|split; [|split]].
  - rewrite matches_length. f_equal.
    rewrite <- (count_positions (fun k => str_in k text) [] keywords 0).
    f_equal. apply filter_ext. intros i. now rewrite Nat.sub_0_r.
  - intros k. apply str_in_substring.
  - intros k ks. rewrite !matches_length. cbn [filter].
    destruct (str_in k text); cbn [length]; lia.
  - rewrite matches_length.
    pose proof (filter_length_le (fun k => str_in k text) keywords). lia.
Qed.

End Scorer.

(* ===================================================================== *)
(** * The order of floats                                                 *)
(* ===================================================================== *)

Lemma SFcompare_swap (a b : pyfloat) :
  SFcompare b a = option_map CompOpp (SFcompare a b).
Proof.
  destruct a as [[]|[]| |[] m1 e1], b as [[]|[]| |[] m2 e2]; simpl; try reflexivity.
  all: rewrite (Z.compare_antisym e1 e2); destruct (e1 ?= e2)%Z; simpl; try reflexivity.
  all: change (Pos.compare_cont Eq m2 m1) with (Pos.compare m2 m1);
       change (Pos.compare_cont Eq m1 m2) with (Pos.compare m1 m2);
       rewrite (Pos.compare_antisym m1 m2);
       destruct (Pos.compare m1 m2); reflexivity.
Qed.

Ltac compare_cases :=
  repeat match goal with
  | |- context [Pos.compare_cont Eq ?a ?b] => fold (Pos.compare a b)
  end;
  repeat match goal with
  | |- context [(?a ?= ?b)%Z] => destruct (Z.compare_spec a b)
  | |- context [(?a ?= ?b)%positive] => destruct (Pos.compare_spec a b)
  end.

Lemma SFleb_trans (a b c : pyfloat) :
  SFleb a b = true -> SFleb b c = true -> SFleb a c = true.
Proof.
  unfold SFleb.
  destruct a as [[]|[]| |[] m1 e1], b as [[]|[]| |[] m2 e2], c as [[]|[]| |[] m3 e3];
    simpl; try reflexivity; try discriminate.
  all: compare_cases; simpl; try reflexivity; try discriminate; intros; subst; try lia.
Qed.

Lemma SFcompare_number (a b : pyfloat) :
  is_number a = true -> is_number b = true -> exists c, SFcompare a b = Some c.
Proof.
  destruct a as [[]|[]| |[] m1 e1], b as [[]|[]| |[] m2 e2]; simpl;
    try discriminate; intros _ _; eexists; reflexivity.
Qed.

Lemma float_ge_trans (a b c : pyfloat) :
  float_ge a b = true -> float_ge b c = true -> float_ge a c = true.
Proof. unfold float_ge. intros H1 H2. exact (SFleb_trans _ _ _ H2 H1). Qed.

Lemma float_ge_number (a b : pyfloat) :
  float_ge a b = true -> is_number a = true /\ is_number b = true.
Proof.
  unfold float_ge, SFleb.
  destruct a as [[]|[]| |[] m1 e1], b as [[]|[]| |[] m2 e2]; simpl;
    try discriminate; intros _; split; reflexivity.
Qed.

Lemma float_lt_ge (a b : pyfloat) :
  float_lt a b = true -> float_ge b a = true.
Proof.
  unfold float_lt, float_ge, SFltb, SFleb.
  destruct (SFcompare a b) as [[]|]; intros H; try discriminate; reflexivity.
Qed.

Lemma float_lt_not_ge (a b : pyfloat) :
  float_lt a b = true -> float_ge a b = false.
Proof.
  unfold float_lt, float_ge, SFltb, SFleb. rewrite (SFcompare_swap a b).
  destruct (SFcompare a b) as [[]|]; intros H; try discriminate; reflexivity.
Qed.

Lemma float_total (a b : pyfloat) :
  is_number a = true -> is_number b = true ->
  float_lt a b = false -> float_ge a b = true.
Proof.
  intros Ha Hb. unfold float_lt, float_ge, SFltb, SFleb.
  rewrite (SFcompare_swap a b).
  destruct (SFcompare_number a b Ha Hb) as [[] ->]; simpl; intros H;
    try discriminate; reflexivity.
Qed.

Lemma float_ge_refl (a : pyfloat) : is_number a = true -> float_ge a a = true.
Proof.
  intros Ha. unfold float_ge, SFleb.
  pose proof (SFcompare_swap a a) as E.
  destruct (SFcompare_number a a Ha Ha) as [[] Hc]; rewrite Hc in *; simpl in E;
    try reflexivity; discriminate.
Qed.

Lemma float_eq_ge (a b : pyfloat) :
  float_eq a b = true <-> float_ge a b = true /\ float_ge b a = true.
Proof.
  unfold float_eq, float_ge, SFeqb, SFleb. rewrite (SFcompare_swap a b).
  destruct (SFcompare a b) as [[]|]; simpl; split; intros H;
    try discriminate; try (split; reflexivity); try reflexivity;
    destruct H; discriminate.
Qed.

(* ===================================================================== *)
(** * [sorted]: order and stability                                       *)
(* ===================================================================== *)

Lemma StronglySorted_snoc {A : Type} (R : A -> A -> Prop) (l : list A) (x : A) :
  StronglySorted R l -> Forall (fun y => R y x) l -> StronglySorted R (l ++ [x]).
Proof.
  induction 1 as [|y l Hl IH Hy]; intros Hx; simpl.
  - constructor; constructor.
  - inversion Hx; subst. constructor.
    + now apply IH.
    + apply Forall_app. split; [assumption | now constructor].
Qed.

Lemma StronglySorted_rev {A : Type} (R : A -> A -> Prop) (l : list A) :
  StronglySorted R l -> StronglySorted (fun x y => R y x) (rev l).
Proof.
  induction 1 as [|y l Hl IH Hy]; simpl.
  - constructor.
  - apply StronglySorted_snoc; [assumption | now apply Forall_rev].
Qed.

(** In a strongly sorted list, neighbours are related. *)
Lemma StronglySorted_adjacent {A : Type} (R : A -> A -> Prop) (l : list A) :
  StronglySorted R l ->
  forall pre a b post, l = pre ++ a :: b :: post -> R a b.
Proof.
  intros Hl pre; revert l Hl; induction pre as [|c pre IH]; intros l Hl a b post ->.
  - simpl in Hl. inversion Hl as [|? ? _ Hab]; subst. now inversion Hab.
  - simpl in Hl. inversion Hl; subst. eapply IH; eauto.
Qed.

Lemma filter_none {A : Type} (f : A -> bool) (l : list A) :
  Forall (fun z => f z = false) l -> filter f l = [].
Proof.
  induction 1 as [|z l Hz _ IH]; simpl; [reflexivity|]. now rewrite Hz.
Qed.

Lemma filter_cons_eq {A : Type} (f : A -> bool) (x : A) (l : list A) :
  filter f (x :: l) = if f x then x :: filter f l else filter f l.
Proof. reflexivity. Qed.

Section SortedFacts.

Variable A : Type.
Variable key : A -> pyfloat.

Lemma insert_perm (x : A) (l : list A) : Permutation (insert key x l) (x :: l).
Proof.
  induction l as [|y l IH]; simpl; [reflexivity|].
  destruct (float_lt (key x) (key y)); [reflexivity|].
  rewrite IH. apply perm_swap.
Qed.

Lemma insert_ascending (x : A) (l : list A) :
  numbers key (x :: l) -> ascending key l -> ascending key (insert key x l).
Proof.
  unfold numbers, ascending. intros Hn Hl; induction Hl as [|y l Hl IH Hy]; simpl.
  - repeat constructor.
  - inversion Hn as [|? ? Hx Hn']; subst. inversion Hn' as [|? ? Hy' Hn'']; subst.
    destruct (float_lt (key x) (key y)) eqn:E.
    + constructor; [now constructor|].
      constructor; [now apply float_lt_ge|].
      eapply Forall_impl; [|exact Hy]. cbv beta. intros z Hz.
      eapply float_ge_trans; [exact Hz | now apply float_lt_ge].
    + constructor.
      * apply IH. now constructor.
      * eapply Permutation_Forall; [symmetry; apply insert_perm|].
        constructor; [|assumption]. now apply float_total.
Qed.

Lemma insert_with_key (s : pyfloat) (x : A) (l : list A) :
  numbers key l -> ascending key l ->
  with_key key s (insert key x l)
  = with_key key s l ++ (if float_eq (key x) s then [x] else []).
Proof.
  unfold numbers, ascending, with_key.
  intros Hn Hl; induction Hl as [|y l Hl IH Hy].
  - simpl. destruct (float_eq (key x) s); reflexivity.
  - inversion Hn as [|? ? Hy' Hn']; subst. cbn [insert].
    destruct (float_lt (key x) (key y)) eqn:E.
    + rewrite (filter_cons_eq _ x (y :: l)).
      destruct (float_eq (key x) s) eqn:Ex.
      * assert (Hnone : filter (fun z => float_eq (key z) s) (y :: l) = []).
        { apply filter_none.
          apply float_eq_ge in Ex. destruct Ex as [Hxs Hsx].
          assert (Hall : Forall (fun z => float_ge (key z) (key y) = true) (y :: l)).
          { constructor; [now apply float_ge_refl | exact Hy]. }
          apply Forall_forall. intros z Hz.
          destruct (float_eq (key z) s) eqn:Ez; [|reflexivity].
          apply float_eq_ge in Ez. destruct Ez as [Hzs Hsz].
          rewrite Forall_forall in Hall. specialize (Hall z Hz).
          pose proof (float_lt_not_ge _ _ E) as Hno.
          rewrite (float_ge_trans _ _ _ (float_ge_trans _ _ _ Hxs Hsz) Hall) in Hno.
          discriminate. }
        rewrite Hnone. reflexivity.
      * now rewrite app_nil_r.
    + rewrite !(filter_cons_eq _ y).
      destruct (float_eq (key y) s); rewrite (IH Hn'); reflexivity.
Qed.

Lemma numbers_perm (l l' : list A) :
  Permutation l l' -> numbers key l -> numbers key l'.
Proof. intros Hp. apply Permutation_Forall. exact Hp. Qed.

(** The loop of the insertion sort keeps the three facts: permutation,
    order, and the relative order of equal keys. *)
Lemma sort_loop (l acc : list A) :
  numbers key acc -> numbers key l -> ascending key acc ->
  let out := fold_left (fun prefix x => insert key x prefix) l acc in
  Permutation out (acc ++ l) /\ ascending key out /\
  forall s, with_key key s out = with_key key s acc ++ with_key key s l.
Proof.
  revert acc; induction l as [|x l IH]; intros acc Hacc Hl Hs; cbn [fold_left].
  - cbv zeta. rewrite app_nil_r. repeat split; [reflexivity | assumption |].
    intros s. unfold with_key. simpl. now rewrite app_nil_r.
  - inversion Hl as [|? ? Hx Hl']; subst.
    assert (Hn : numbers key (insert key x acc)).
    { eapply numbers_perm; [symmetry; apply insert_perm | now constructor]. }
    assert (Ha : ascending key (insert key x acc)).
    { apply insert_ascending; [now constructor | assumption]. }
    destruct (IH (insert key x acc) Hn Hl' Ha) as [Hp [Ho Hk]].
    cbv zeta. repeat split.
    + rewrite Hp, insert_perm. simpl. apply Permutation_middle.
    + exact Ho.
    + intros s. rewrite Hk, (insert_with_key s x Hacc Hs).
      rewrite <- app_assoc. unfold with_key at 4. cbn [filter].
      destruct (float_eq (key x) s); reflexivity.
Qed.

Lemma sort_stable_spec (l : list A) :
  numbers key l ->
  Permutation (sort_stable key l) l /\ ascending key (sort_stable key l) /\
  forall s, with_key key s (sort_stable key l) = with_key key s l.
Proof.
  intros Hl. unfold sort_stable.
  apply (sort_loop (acc := [])); [constructor | assumption | constructor].
Qed.

(** [sorted(l, key=key, reverse=True)] on keys that are numbers: a
    permutation of [l], in non-increasing key order, in which entries of
    equal key are in the order they have in [l]. *)
Lemma sorted_reverse_spec (l : list A) :
  numbers key l ->
  Permutation (sorted key true l) l /\ descending key (sorted key true l) /\
  forall s, with_key key s (sorted key true l) = with_key key s l.
Proof.
  intros Hl. unfold sorted.
  assert (Hr : numbers key (rev l)) by (now apply Forall_rev).
  destruct (sort_stable_spec Hr) as [Hp [Ho Hk]]. repeat split.
  - rewrite <- Permutation_rev, Hp. symmetry. apply Permutation_rev.
  - unfold descending. apply StronglySorted_rev in Ho. exact Ho.
  - intros s. unfold with_key in *. rewrite filter_rev, Hk, filter_rev.
    apply rev_involutive.
Qed.

End SortedFacts.

(* ===================================================================== *)
(** * The batch loop as a filter                                          *)
(* ===================================================================== *)

Section Batch.

Variable U : unicode_db.
Variable tensor : Type.
Variable cos_sim : tensor -> tensor -> pyfloat.
Variable W : world tensor.
Variable inp : inputs.
Variable model : sentence_model tensor.
Variable keywords : list pystr.
Variable total : nat.

Local Notation "'body'" := (loop_body U cos_sim W inp model keywords total).

Lemma loop_body_results (st : loop_state) (i : nat) (filename : pystr) :
  results (body st (i, filename))
  = results st
    ++ (if passes U cos_sim W inp model keywords filename
        then [entry_of U cos_sim W inp model keywords filename]
        else []).
Proof.
  unfold loop_body, passes, entry_of, count_of, score_of, text_of, path_of.
  destruct (process_file U W (path_join (folder_path inp) filename)
              (file_type_of U filename)) as [text warnings]; cbn [fst].
  destruct (truthy text); cbn [negb andb]; [|simpl; now rewrite app_nil_r].
  destruct (analyze_resume U cos_sim model text keywords) as [matches score];
    cbn [fst snd].
  destruct (matches <? min_matches inp)%Z; cbn [negb andb];
    [simpl; now rewrite app_nil_r|].
  destruct (float_ge score (min_score inp)); simpl; [reflexivity|].
  now rewrite app_nil_r.
Qed.

(** The loop appends, in listing order, the entries of the files that pass. *)
Lemma loop_results (items : list (nat * pystr)) (st : loop_state) :
  results (fold_left body items st)
  = results st
    ++ map (entry_of U cos_sim W inp model keywords)
           (filter (passes U cos_sim W inp model keywords) (map snd items)).
Proof.
  revert st; induction items as [|[i filename] items IH]; intros st; cbn [fold_left].
  - simpl. now rewrite app_nil_r.
  - rewrite IH, loop_body_results. cbn [map snd filter].
    destruct (passes U cos_sim W inp model keywords filename); cbn [map];
      rewrite <- app_assoc; reflexivity.
Qed.

(** Every scoring call is for a listed file with a non-empty text. *)
Lemma loop_body_scored (st : loop_state) (i : nat) (filename f t : pystr) :
  In (call_analyze_resume f t) (log (body st (i, filename))) ->
  In (call_analyze_resume f t) (log st)
  \/ (f = filename /\ t = text_of U W inp filename /\ t <> []).
Proof.
  unfold loop_body, text_of, path_of.
  destruct (process_file U W (path_join (folder_path inp) filename)
              (file_type_of U filename)) as [text warnings] eqn:E; cbn [fst].
  assert (Hw : ~ In (call_analyze_resume f t) warnings).
  { unfold process_file in E.
    destruct (process_file_body U W _ _); injection E as <- <-; simpl;
      [tauto | intros [H|[]]; discriminate]. }
  assert (Hstep :
            In (call_analyze_resume f t)
               (log (emit (call_process_file (path_join (folder_path inp) filename)
                             (file_type_of U filename) :: warnings) st)) ->
            In (call_analyze_resume f t) (log st)).
  { intros H. simpl in H. apply in_app_or in H. destruct H as [H|[H|H]];
      [assumption | discriminate | contradiction]. }
  destruct text as [|c text]; cbn [truthy negb].
  - intros H. left. now apply Hstep.
  - destruct (analyze_resume U cos_sim model (c :: text) keywords) as [matches score].
    assert (Hscored : In (call_analyze_resume f t)
              (log (emit [call_analyze_resume filename (c :: text)]
                 (emit (call_process_file (path_join (folder_path inp) filename)
                          (file_type_of U filename) :: warnings) st))) ->
            In (call_analyze_resume f t) (log st)
            \/ (f = filename /\ t = c :: text /\ t <> [])).
    { intros H. cbn [emit log] in H. apply in_app_or in H. destruct H as [H|[H|[]]].
      - left. now apply Hstep.
      - right. injection H as <- <-. repeat split. discriminate. }
    destruct (matches <? min_matches inp)%Z; [exact Hscored|].
    intros H. apply Hscored. cbn [emit log] in H |- *.
    apply in_app_or in H. destruct H as [H|[H|[]]]; [|discriminate].
    destruct (float_ge score (min_score inp)); exact H.
Qed.

Lemma loop_scored (items : list (nat * pystr)) (st : loop_state) (f t : pystr) :
  In (call_analyze_resume f t) (log (fold_left body items st)) ->
  In (call_analyze_resume f t) (log st)
  \/ (In f (map snd items) /\ t = text_of U W inp f /\ t <> []).
Proof.
  revert st; induction items as [|[i filename] items IH]; intros st; cbn [fold_left].
  - now left.
  - intros H. apply IH in H. destruct H as [H|[Hin Ht]].
    + apply loop_body_scored in H. destruct H as [H|[-> Ht]]; [now left|].
      right. split; [now left | exact Ht].
    + right. split; [now right | exact Ht].
Qed.

End Batch.

(* ===================================================================== *)
(** * Runs of [main]                                                      *)
(* ===================================================================== *)

Lemma enumerate_snd {A : Type} (l : list A) : map snd (enumerate l) = l.
Proof.
  unfold enumerate. generalize 0.
  induction l as [|x l IH]; intros a; simpl; [reflexivity|]. now rewrite IH.
Qed.

Section Runs.

Variable U : unicode_db.
Variable tensor : Type.
Variable cos_sim : tensor -> tensor -> pyfloat.
Variable W : world tensor.

Lemma analyse_verdict (inp : inputs) (model : sentence_model tensor)
    (names : list pystr) :
  listdir W (folder_path inp) = Done names ->
  snd (analyse U cos_sim W inp model)
  = match filter (qualifies U) names with
    | [] => NoCandidateFiles
    | _ => match accepted U cos_sim W inp model names with
           | [] => NoQualifyingCandidates
           | _ => Ranked (sorted Score true (accepted U cos_sim W inp model names))
           end
    end.
Proof.
  intros Hls. unfold analyse. rewrite Hls.
  destruct (filter (qualifies U) names) as [|f fs] eqn:Ef; [reflexivity|].
  rewrite loop_results, enumerate_snd. cbn [results app].
  unfold accepted. rewrite Ef.
  destruct (map _ (filter _ (f :: fs))); reflexivity.
Qed.

Lemma main_verdict (inp : inputs) :
  snd (main U cos_sim W inp)
  = match SentenceTransformer W model_name with
    | Raised _ => ModelLoadFailure
    | Done model =>
        if triggered W inp then snd (analyse U cos_sim W inp model)
        else if negb (path_exists W (folder_path inp)) then FolderNotFound
        else NotTriggered
    end.
Proof.
  unfold main, load_models, triggered. fold model_name.
  destruct (SentenceTransformer W model_name) as [model|e]; [|reflexivity].
  destruct (button inp && truthy (job_title inp) && truthy (folder_path inp)
            && path_exists W (folder_path inp)).
  - destruct (analyse U cos_sim W inp model); reflexivity.
  - destruct (negb (path_exists W (folder_path inp))); reflexivity.
Qed.

(** A run that ends with a ranking loaded the model, was triggered, listed
    the folder, and ranks what the loop accepted. *)
Lemma main_ranked (inp : inputs) (ranking : list entry) :
  snd (main U cos_sim W inp) = Ranked ranking ->
  exists model names,
    SentenceTransformer W model_name = Done model /\
    triggered W inp = true /\
    listdir W (folder_path inp) = Done names /\
    ranking = sorted Score true (accepted U cos_sim W inp model names).
Proof.
  rewrite main_verdict.
  destruct (SentenceTransformer W model_name) as [model|e]; [|discriminate].
  destruct (triggered W inp).
  2: { destruct (negb (path_exists W (folder_path inp))); discriminate. }
  destruct (listdir W (folder_path inp)) as [names|e] eqn:Hls.
  2: { unfold analyse. rewrite Hls. discriminate. }
  rewrite (analyse_verdict inp model Hls).
  destruct (filter (qualifies U) names); [discriminate|].
  destruct (accepted U cos_sim W inp model names) eqn:Ea; [discriminate|].
  intros H. injection H as <-. exists model, names. rewrite Ea. auto.
Qed.

Lemma accepted_meets (inp : inputs) (model : sentence_model tensor)
    (names : list pystr) :
  Forall (meets inp) (accepted U cos_sim W inp model names).
Proof.
  unfold accepted. apply Forall_forall. intros r Hr.
  apply in_map_iff in Hr. destruct Hr as [f [<- Hf]].
  apply filter_In in Hf. destruct Hf as [_ Hp].
  unfold passes in Hp. rewrite !andb_true_iff, negb_true_iff in Hp.
  destruct Hp as [[_ Hc] Hs]. split; [|exact Hs].
  cbn [entry_of Matches]. apply Z.ltb_ge. exact Hc.
Qed.

Lemma accepted_numbers (inp : inputs) (model : sentence_model tensor)
    (names : list pystr) :
  numbers Score (accepted U cos_sim W inp model names).
Proof.
  eapply Forall_impl; [|apply accepted_meets]. cbv beta.
  intros r [_ Hs]. now apply float_ge_number in Hs.
Qed.

(** An accepted entry comes from a listed file with a non-empty text. *)
Lemma accepted_text (inp : inputs) (model : sentence_model tensor)
    (names : list pystr) (r : entry) :
  In r (accepted U cos_sim W inp model names) ->
  In (Arquivo r) names /\ Texto r = text_of U W inp (Arquivo r) /\ Texto r <> [].
Proof.
  unfold accepted. intros Hr.
  apply in_map_iff in Hr. destruct Hr as [f [<- Hf]].
  apply filter_In in Hf. destruct Hf as [Hq Hp].
  apply filter_In in Hq. destruct Hq as [Hin _].
  unfold passes in Hp. rewrite !andb_true_iff in Hp. destruct Hp as [[Ht _] _].
  cbn [entry_of Arquivo Texto]. repeat split; [assumption|].
  destruct (text_of U W inp f); [discriminate | discriminate].
Qed.

(** C1: whatever the two thresholds are, every entry of the ranked list a
    run shows has at least [min_matches] matches and a score that is at
    least [min_score]. *)
Theorem ranked_entries_meet_thresholds (inp : inputs) :
  Forall (fun r => (min_matches inp <= Matches r)%Z
                   /\ float_ge (Score r) (min_score inp) = true)
         (ranked_list (snd (main U cos_sim W inp))).
Proof.
  destruct (snd (main U cos_sim W inp)) as [| | | | |ranking|e] eqn:Ev;
    try (cbn [ranked_list]; constructor).
  apply main_ranked in Ev. destruct Ev as [model [names [_ [_ [_ ->]]]]].
  cbn [ranked_list].
  destruct (sorted_reverse_spec (accepted_numbers inp model names)) as [Hp _].
  eapply Permutation_Forall; [symmetry; exact Hp|].
  exact (accepted_meets inp model names).
Qed.

End Runs.

Section RunProperties.

Variable U : unicode_db.
Variable tensor : Type.
Variable cos_sim : tensor -> tensor -> pyfloat.
Variable W : world tensor.

Lemma analyse_scored (inp : inputs) (model : sentence_model tensor) (f t : pystr) :
  In (call_analyze_resume f t) (fst (analyse U cos_sim W inp model)) ->
  t = text_of U W inp f /\ t <> [].
Proof.
  unfold analyse.
  destruct (listdir W (folder_path inp)) as [names|e].
  2: { simpl. intros [H|[]]. discriminate. }
  destruct (filter (qualifies U) names) as [|g gs].
  { simpl. intros [H|[]]. discriminate. }
  set (st := fold_left _ _ _).
  assert (Hlog : In (call_analyze_resume f t) (log st) ->
                 t = text_of U W inp f /\ t <> []).
  { intros H. apply loop_scored in H. destruct H as [H|[_ H]]; [|exact H].
    simpl in H. destruct H as [H|[]]. discriminate. }
  destruct (results st); cbn [fst]; intros H; apply in_app_or in H;
    destruct H as [H|[H|[]]]; try discriminate; now apply Hlog.
Qed.

Lemma main_scored (inp : inputs) (f t : pystr) :
  In (call_analyze_resume f t) (fst (main U cos_sim W inp)) ->
  t = text_of U W inp f /\ t <> [].
Proof.
  unfold main, load_models.
  destruct (SentenceTransformer W _) as [model|e].
  2: { simpl. intros [H|[]]. discriminate. }
  destruct (button inp && truthy (job_title inp) && truthy (folder_path inp)
            && path_exists W (folder_path inp)).
  - pose proof (@analyse_scored inp model f t) as Ha.
    destruct (analyse U cos_sim W inp model) as [trace v]. exact Ha.
  - destruct (negb (path_exists W (folder_path inp))); simpl; [|tauto].
    intros [H|[]]. discriminate.
Qed.

(** C4: a document whose extraction yields the empty text is never scored
    and has no entry in the ranked list, whatever the thresholds are. *)
Theorem empty_text_never_scored_nor_ranked (inp : inputs) (filename : pystr) :
  text_of U W inp filename = [] ->
  (forall text,
      ~ In (call_analyze_resume filename text) (fst (main U cos_sim W inp)))
  /\ (forall r, In r (ranked_list (snd (main U cos_sim W inp))) ->
                Arquivo r <> filename).
Proof.
  intros Hempty. split.
  - intros text H. apply main_scored in H. destruct H as [-> H]. now apply H.
  - intros r Hr Heq.
    destruct (snd (main U cos_sim W inp)) as [| | | | |ranking|e] eqn:Ev;
      try contradiction.
    apply main_ranked in Ev. destruct Ev as [model [names [_ [_ [_ ->]]]]].
    cbn [ranked_list] in Hr.
    destruct (sorted_reverse_spec (accepted_numbers U cos_sim W inp model names))
      as [Hp _].
    apply (Permutation_in _ Hp) in Hr. apply accepted_text in Hr.
    destruct Hr as [_ [Ht Hne]]. rewrite Heq, Hempty in Ht. contradiction.
Qed.

(** C5: the ranked list is in non-increasing score order (neighbours
    included), and the entries of any one score are in the order in which
    the batch loop met their files, which is the listing order. *)
Theorem ranking_sorted_and_stable (inp : inputs) (ranking : list entry) :
  snd (main U cos_sim W inp) = Ranked ranking ->
  exists model names,
    SentenceTransformer W model_name = Done model /\
    listdir W (folder_path inp) = Done names /\
    Permutation ranking (accepted U cos_sim W inp model names) /\
    (forall pre a b post, ranking = pre ++ a :: b :: post ->
                          float_ge (Score a) (Score b) = true) /\
    (forall s, with_key Score s ranking
               = with_key Score s (accepted U cos_sim W inp model names)).
Proof.
  intros Hv. apply main_ranked in Hv.
  destruct Hv as [model [names [Hm [_ [Hls ->]]]]].
  exists model, names.
  destruct (sorted_reverse_spec (accepted_numbers U cos_sim W inp model names))
    as [Hp [Hd Hk]].
  repeat split; try assumption.
  intros pre a b post E.
  exact (StronglySorted_adjacent Hd pre a b post E).
Qed.

(** A parser that raises makes the [try] body of [process_file] raise. *)
Lemma pdf_failure_raises (file_path : pystr) (e : exn) :
  pdf_pages W file_path = Raised e ->
  process_file_body U W file_path (str "pdf") = Raised e.
Proof. intros H. unfold process_file_body. cbn [str_eqb]. now rewrite H. Qed.

Lemma docx_failure_raises (file_path : pystr) (e : exn) :
  docx_paragraphs W file_path = Raised e ->
  process_file_body U W file_path (str "docx") = Raised e.
Proof. intros H. unfold process_file_body. cbn [str_eqb]. now rewrite H. Qed.

(** C8: when the extraction of a file raises, [process_file] shows one
    warning and returns the empty string; the batch loop goes on, and its
    results are those of the listing without that file. *)
Theorem extraction_failure_is_recovered (inp : inputs)
    (model : sentence_model tensor) (keywords : list pystr) (total : nat)
    (filename : pystr) (e : exn) :
  process_file_body U W (path_of inp filename) (file_type_of U filename) = Raised e ->
  process_file U W (path_of inp filename) (file_type_of U filename)
  = ([], [st_warning (msg_process_failed (basename (path_of inp filename)) e)])
  /\ (forall st i,
        loop_body U cos_sim W inp model keywords total st (i, filename)
        = emit [call_process_file (path_of inp filename) (file_type_of U filename);
                st_warning (msg_process_failed (basename (path_of inp filename)) e)]
               st)
  /\ (forall before after st,
        results (fold_left (loop_body U cos_sim W inp model keywords total)
                           (enumerate (before ++ filename :: after)) st)
        = results (fold_left (loop_body U cos_sim W inp model keywords total)
                             (enumerate (before ++ after)) st)).
Proof.
  intros Hraise.
  assert (Hpf : process_file U W (path_of inp filename) (file_type_of U filename)
                = ([], [st_warning
                          (msg_process_failed (basename (path_of inp filename)) e)])).
  { unfold process_file. now rewrite Hraise. }
  split; [exact Hpf|]. split.
  - intros st i. unfold loop_body. fold (path_of inp filename).
    rewrite Hpf. reflexivity.
  - intros before after st. rewrite !loop_results, !enumerate_snd.
    rewrite !filter_app. cbn [filter].
    assert (Hp : passes U cos_sim W inp model keywords filename = false).
    { unfold passes, text_of. rewrite Hpf. reflexivity. }
    rewrite Hp. reflexivity.
Qed.

(** C9: when the folder exists and lists no name that ends in .pdf or
    .docx (case ignored), a triggered run shows the one message that no file
    was found and stops: nothing is extracted, nothing is scored, and there
    is no ranked list. *)
Theorem no_candidate_files_stops (inp : inputs) (model : sentence_model tensor)
    (names : list pystr) :
  SentenceTransformer W model_name = Done model ->
  button inp = true ->
  job_title inp <> [] ->
  folder_path inp <> [] ->
  path_exists W (folder_path inp) = true ->
  listdir W (folder_path inp) = Done names ->
  (forall f, In f names -> qualifies U f = false) ->
  main U cos_sim W inp = ([st_error msg_no_files], NoCandidateFiles)
  /\ ranked_list (snd (main U cos_sim W inp)) = []
  /\ (forall p t, ~ In (call_process_file p t) (fst (main U cos_sim W inp)))
  /\ (forall f t, ~ In (call_analyze_resume f t) (fst (main U cos_sim W inp))).
Proof.
  intros Hm Hb Ht Hf He Hls Hnone.
  assert (Hmain : main U cos_sim W inp = ([st_error msg_no_files], NoCandidateFiles)).
  { unfold main, load_models. fold model_name. rewrite Hm, Hb, He.
    destruct (job_title inp); [contradiction|].
    destruct (folder_path inp) eqn:Ef; [contradiction|]. cbn [truthy andb].
    unfold analyse. rewrite Ef, Hls.
    assert (Hq : filter (qualifies U) names = []).
    { apply filter_none. apply Forall_forall. exact Hnone. }
    rewrite Hq. reflexivity. }
  rewrite Hmain. cbn [fst snd ranked_list]. repeat split.
  - intros p t [H|[]]. discriminate.
  - intros f t [H|[]]. discriminate.
Qed.

End RunProperties.

(* ===================================================================== *)
(** * The profile keywords                                                *)
(* ===================================================================== *)

Section Regex.

Variable p : char -> bool.

Lemma span_app (s : pystr) : fst (span p s) ++ snd (span p s) = s.
Proof.
  induction s as [|c s IH]; simpl; [reflexivity|].
  destruct (p c); [|reflexivity].
  destruct (span p s) as [w r]; simpl in *. now rewrite IH.
Qed.

Lemma span_all (s : pystr) : forallb p (fst (span p s)) = true.
Proof.
  induction s as [|c s IH]; simpl; [reflexivity|].
  destruct (p c) eqn:E; [|reflexivity].
  destruct (span p s) as [w r]; simpl in *. now rewrite E, IH.
Qed.

(** What follows the greedy match starts with a character outside [p]. *)
Lemma span_rest_head (s : pystr) (d : char) (r : pystr) :
  snd (span p s) = d :: r -> p d = false.
Proof.
  induction s as [|c s IH]; simpl; [discriminate|].
  destruct (p c) eqn:E.
  - destruct (span p s) as [w r']; simpl in *. exact IH.
  - simpl. intros H. injection H as <- _. exact E.
Qed.

Lemma split_at_span (s cur : pystr) :
  split_at (non p) s cur
  = (rev cur ++ fst (span p s))
    :: match snd (span p s) with
       | [] => []
       | _ :: r => split_at (non p) r []
       end.
Proof.
  revert cur; induction s as [|c s IH]; intros cur; simpl.
  - now rewrite app_nil_r.
  - unfold non at 1. destruct (p c); cbn [negb].
    + rewrite IH. destruct (span p s) as [w r]; simpl.
      now rewrite <- app_assoc.
    + simpl. now rewrite app_nil_r.
Qed.

(** The regex scan finds the tokens delimited by the characters outside
    [p] that have at least [n] characters. *)
Lemma re_findall_run_tokens (n : nat) (s : pystr) :
  1 <= n ->
  re_findall_run p n s = filter (fun w => n <=? length w) (tokens (non p) s).
Proof.
  intros Hn.
  assert (Hlong : forall l : list pystr,
            filter (fun w => n <=? length w) (filter truthy l)
            = filter (fun w => n <=? length w) l).
  { induction l as [|w l IH]; [reflexivity|]. cbn [filter].
    destruct w as [|c w]; cbn [truthy].
    - replace (n <=? length (@nil char)) with false; [exact IH|].
      symmetry. apply Nat.leb_gt. simpl. lia.
    - cbn [filter]. now rewrite IH. }
  unfold tokens. rewrite Hlong.
  remember (length s) as k eqn:Hk. revert s Hk.
  induction k as [k IH] using lt_wf_ind. intros s Hk.
  destruct s as [|c s]; simp re_findall_run.
  - simpl. replace (n <=? 0) with false; [reflexivity|].
    symmetry. apply Nat.leb_gt. lia.
  - assert (IHs : re_findall_run p n s
                  = filter (fun w => n <=? length w) (split_at (non p) s [])).
    { apply (IH (length s)); [subst k; simpl; lia | reflexivity]. }
    assert (IHr : re_findall_run p n (snd (span p s))
                  = filter (fun w => n <=? length w)
                      match snd (span p s) with
                      | [] => []
                      | _ :: r => split_at (non p) r []
                      end).
    { pose proof (span_rest_length p s) as Hlen.
      rewrite (IH (length (snd (span p s)))); [|subst k; simpl; lia | reflexivity].
      destruct (snd (span p s)) as [|d r] eqn:Er.
      - simpl. replace (n <=? 0) with false; [reflexivity|].
        symmetry. apply Nat.leb_gt. lia.
      - apply span_rest_head in Er. cbn [split_at]. unfold non at 1.
        rewrite Er. cbn [negb rev filter].
        replace (n <=? length (@nil char)) with false; [reflexivity|].
        symmetry. apply Nat.leb_gt. simpl. lia. }
    cbn [split_at]. unfold non at 1. destruct (p c); cbn [negb].
    + rewrite (split_at_span s [c]). cbn [rev app filter].
      destruct (n <=? length (c :: fst (span p s))) eqn:E.
      * now rewrite IHr.
      * rewrite IHs, (split_at_span s []). cbn [rev app filter].
        replace (n <=? length (fst (span p s))) with false; [reflexivity|].
        symmetry. apply Nat.leb_gt. apply Nat.leb_gt in E. simpl in E. lia.
    + cbn [rev filter].
      replace (n <=? length (@nil char)) with false; [exact IHs|].
      symmetry. apply Nat.leb_gt. simpl. lia.
Qed.

(** Every match is a piece of the subject, made of [p]-characters, with at
    least [n] of them. *)
Lemma re_findall_run_matches (n : nat) (s w : pystr) :
  In w (re_findall_run p n s) ->
  (exists pre post, s = pre ++ w ++ post)
  /\ forallb p w = true /\ n <= length w.
Proof.
  remember (length s) as k eqn:Hk. revert s Hk.
  induction k as [k IH] using lt_wf_ind. intros s Hk.
  destruct s as [|c s]; simp re_findall_run; [intros []|].
  assert (IHs : In w (re_findall_run p n s) ->
                (exists pre post, c :: s = pre ++ w ++ post)
                /\ forallb p w = true /\ n <= length w).
  { intros H. apply (IH (length s)) in H; [|subst k; simpl; lia | reflexivity].
    destruct H as [[pre [post E]] H]. split; [|exact H].
    exists (c :: pre), post. now rewrite E. }
  destruct (p c) eqn:Ec; [|exact IHs].
  destruct (n <=? length (c :: fst (span p s))) eqn:E; [|exact IHs].
  intros [<- | H].
  - repeat split.
    + exists [], (snd (span p s)). simpl. now rewrite span_app.
    + simpl. now rewrite Ec, span_all.
    + now apply Nat.leb_le.
  - pose proof (span_rest_length p s) as Hlen.
    apply (IH (length (snd (span p s)))) in H; [|subst k; simpl; lia | reflexivity].
    destruct H as [[pre [post Er]] H]. split; [|exact H].
    exists (c :: fst (span p s) ++ pre), post.
    rewrite <- (span_app s) at 1. rewrite Er. simpl. now rewrite <- app_assoc.
Qed.

End Regex.

(** C3, as the code has it: the keyword list is the title followed by the
    maximal runs of word characters of the description that have at least
    four characters, in the order and the case in which they occur, repeats
    included; each is a piece of the description made of word characters. *)
Theorem job_keywords_word_runs (U : unicode_db) (title desc : pystr) :
  job_keywords U title desc = word_run_keywords U title desc
  /\ hd_error (job_keywords U title desc) = Some title
  /\ Forall (fun w => str_in w desc = true
                      /\ forallb (py_isword U) w = true
                      /\ 4 <= length w)
            (tl (job_keywords U title desc)).
Proof.
  assert (Hf : forall l : list pystr,
            filter (fun word => 3 <? length word) l
            = filter (fun w => 4 <=? length w) l).
  { intros l. apply filter_ext. intros w. reflexivity. }
  unfold job_keywords, word_run_keywords, re_findall_w4. cbn [app hd_error tl].
  repeat split.
  - f_equal. rewrite Hf, re_findall_run_tokens by lia.
    induction (tokens _ desc) as [|w l IH]; [reflexivity|]. cbn [filter].
    destruct (4 <=? length w) eqn:E; cbn [filter]; rewrite ?E, IH; reflexivity.
  - apply Forall_forall. intros w Hw. apply filter_In in Hw. destruct Hw as [Hw _].
    apply re_findall_run_matches in Hw. destruct Hw as [Hsub Hw].
    split; [now apply str_in_substring | exact Hw].
Qed.

(** C3 as stated fails: a hyphen is no whitespace, so the whitespace token
    of "data-science" is the whole of it, while the code finds two words. *)
Lemma job_keywords_not_whitespace_tokens :
  job_keywords AsciiDb.db (str "Dev") (str "data-science")
  = [str "Dev"; str "data"; str "science"]
  /\ whitespace_keywords AsciiDb.db (str "Dev") (str "data-science")
     = [str "Dev"; str "data-science"]
  /\ job_keywords AsciiDb.db (str "Dev") (str "data-science")
     <> whitespace_keywords AsciiDb.db (str "Dev") (str "data-science").
Proof.
  split; [reflexivity|]. split; [reflexivity|]. discriminate.
Qed.

(* ===================================================================== *)
(** * The text given to the model for the profile                         *)
(* ===================================================================== *)

Section Repr.

Variable U : unicode_db.

Lemma repr_char_length (q c : char) : 1 <= length (repr_char U q c).
Proof.
  unfold repr_char.
  repeat match goal with
         | |- context [if ?b then _ else _] => destruct b
         end; simpl; lia.
Qed.

Lemma repr_chars_length (q : char) (s : pystr) :
  length s <= length (flat_map (repr_char U q) s).
Proof.
  induction s as [|c s IH]; simpl; [lia|].
  rewrite length_app. pose proof (repr_char_length q c). lia.
Qed.

Lemma repr_str_length (s : pystr) : length s + 2 <= length (repr_str U s).
Proof.
  unfold repr_str. cbv zeta. simpl. rewrite length_app. simpl.
  pose proof (repr_chars_length (repr_quote s) s). lia.
Qed.

Lemma join_length (sep : pystr) (parts : list pystr) :
  length (concat parts) <= length (join sep parts).
Proof.
  induction parts as [|x [|y parts] IH]; simpl in *; [lia | rewrite app_nil_r; lia |].
  rewrite !length_app in *. lia.
Qed.

Lemma concat_repr_length (l : list pystr) :
  length (concat l) + 2 * length l <= length (concat (map (repr_str U) l)).
Proof.
  induction l as [|s l IH]; [simpl; lia|].
  cbn [map concat]. rewrite !length_app. cbn [length].
  pose proof (repr_str_length s). lia.
Qed.

Lemma repr_list_length (l : list pystr) :
  length (concat l) + 2 * length l + 2 <= length (repr_list U l).
Proof.
  unfold repr_list. rewrite !length_app.
  pose proof (join_length (str ", ") (map (repr_str U) l)).
  pose proof (concat_repr_length l). simpl. lia.
Qed.

Lemma repr_str_plain (s : pystr) :
  forallb plain s = true -> repr_str U s = apostrophe :: s ++ [apostrophe].
Proof.
  intros Hs.
  assert (Hq : repr_quote s = apostrophe).
  { unfold repr_quote.
    replace (existsb (N.eqb apostrophe) s) with false; [reflexivity|].
    symmetry. induction s as [|c s IH]; [reflexivity|].
    cbn [forallb existsb] in Hs |- *. apply andb_true_iff in Hs.
    destruct Hs as [Hc Hs].
    rewrite (IH Hs), orb_false_r. unfold plain in Hc.
    rewrite !andb_true_iff, !negb_true_iff in Hc. rewrite N.eqb_sym. tauto. }
  unfold repr_str. cbv zeta. rewrite Hq. cbn [app]. do 2 f_equal.
  clear Hq. induction s as [|c s IH]; [reflexivity|].
  cbn [forallb flat_map] in Hs |- *. apply andb_true_iff in Hs.
  destruct Hs as [Hc Hs].
  rewrite (IH Hs). unfold plain in Hc.
  rewrite !andb_true_iff, !negb_true_iff in Hc.
  destruct Hc as [[[Hlo Hhi] Ha] Hb].
  apply N.leb_le in Hlo. apply N.ltb_lt in Hhi.
  unfold repr_char. rewrite Ha, Hb. cbn [orb].
  replace (N.eqb c 9) with false by (symmetry; apply N.eqb_neq; lia).
  replace (N.eqb c 10) with false by (symmetry; apply N.eqb_neq; lia).
  replace (N.eqb c 13) with false by (symmetry; apply N.eqb_neq; lia).
  replace (N.ltb c 32) with false by (symmetry; apply N.ltb_ge; lia).
  replace (N.eqb c 127) with false by (symmetry; apply N.eqb_neq; lia).
  replace (N.ltb c 127) with true by (symmetry; apply N.ltb_lt; lia).
  reflexivity.
Qed.

Variable tensor : Type.
Variable cos_sim : tensor -> tensor -> pyfloat.
Variable model : sentence_model tensor.

(** C7, as the code has it: the score is the cosine similarity of the
    embedding of the profile text and the embedding of the document text,
    and the profile text is the keyword list printed as a Python list:
    brackets around the quoted keywords, separated by a comma and a space.
    That text is longer than the concatenation of the keywords and never
    equal to it. *)
Theorem score_is_similarity_to_printed_keyword_list
    (text : pystr) (keywords : list pystr) :
  snd (analyze_resume U cos_sim model text keywords)
  = cos_sim (encode model (repr_list U keywords)) (encode model text)
  /\ repr_list U keywords
     = str "[" ++ join (str ", ") (map (repr_str U) keywords) ++ str "]"
  /\ (forall k, forallb plain k = true ->
                repr_str U k = apostrophe :: k ++ [apostrophe])
  /\ length (concat keywords) + 2 * length keywords + 2
     <= length (repr_list U keywords)
  /\ repr_list U keywords <> concat keywords.
Proof.
  split; [reflexivity|]. split; [reflexivity|].
  split; [exact repr_str_plain|]. split; [apply repr_list_length|].
  intros E. pose proof (repr_list_length keywords) as H. rewrite E in H. lia.
Qed.

End Repr.

(* ===================================================================== *)
(** * The single-PDF scenario                                             *)
(* ===================================================================== *)

Section Scenario.

Variable U : unicode_db.
Variable tensor : Type.
Variable cos_sim : tensor -> tensor -> pyfloat.
Variable W : world tensor.

Lemma occurrences_empty (k : pystr) : occurrences k [] <= 1.
Proof. cbn [occurrences]. destruct (startswith [] k); simpl; lia. Qed.

(** C2, as the code has it: one qualifying file, a PDF whose extracted text
    has the title three times, thresholds 1 and 0.0. When the score is at
    least 0.0 the ranked list has exactly that one entry; the title counts
    once however often it occurs, so the match count is 1 plus the number of
    description keywords found in the text: at least 1, and exactly 1 when
    the description is empty. *)
Theorem single_pdf_scenario (inp : inputs) (model : sentence_model tensor)
    (names : list pystr) (filename text : pystr) :
  SentenceTransformer W model_name = Done model ->
  triggered W inp = true ->
  listdir W (folder_path inp) = Done names ->
  filter (qualifies U) names = [filename] ->
  file_type_of U filename = str "pdf" ->
  text_of U W inp filename = text ->
  occurrences (job_title inp) text = 3 ->
  min_matches inp = 1%Z ->
  min_score inp = S754_zero false ->
  float_ge (snd (analyze_resume U cos_sim model text
                   (job_keywords U (job_title inp) (job_desc inp))))
           (S754_zero false) = true ->
  exists r,
    snd (main U cos_sim W inp) = Ranked [r]
    /\ Arquivo r = filename
    /\ Texto r = text
    /\ (1 <= Matches r)%Z
    /\ Matches r
       = (1 + Z.of_nat (length (filter (fun k => str_in k text)
                                  (tl (job_keywords U (job_title inp)
                                         (job_desc inp))))))%Z
    /\ (job_desc inp = [] -> Matches r = 1%Z).
Proof.
  intros Hm Htrig Hls Hq _ Htext Hocc Hmin Hscore Hge.
  set (keywords := job_keywords U (job_title inp) (job_desc inp)) in *.
  assert (Hin : str_in (job_title inp) text = true).
  { apply occurrences_str_in. lia. }
  assert (Hne : truthy text = true).
  { destruct text; [|reflexivity].
    pose proof (occurrences_empty (job_title inp)). lia. }
  assert (Hcount : count_of U cos_sim W inp model keywords filename
                   = (1 + Z.of_nat (length (filter (fun k => str_in k text)
                                              (tl keywords))))%Z).
  { unfold count_of. rewrite Htext.
    change (fst (analyze_resume U cos_sim model text keywords))
      with (matches_of U cos_sim model text keywords).
    rewrite matches_length. subst keywords. unfold job_keywords.
    cbn [app tl filter]. rewrite Hin. cbn [length]. lia. }
  assert (Hpass : passes U cos_sim W inp model keywords filename = true).
  { unfold passes. rewrite Hcount, Hmin, Hscore. unfold score_of.
    rewrite Htext, Hne, Hge. cbn [andb]. rewrite andb_true_r.
    apply negb_true_iff. apply Z.ltb_ge. lia. }
  exists (entry_of U cos_sim W inp model keywords filename).
  rewrite main_verdict, Hm, Htrig, (analyse_verdict U cos_sim W inp model Hls), Hq.
  unfold accepted. fold keywords. rewrite Hq. cbn [filter]. rewrite Hpass.
  cbn [map entry_of Arquivo Texto Matches].
  split; [reflexivity|]. split; [reflexivity|]. split; [exact Htext|].
  rewrite Hcount. split; [lia|]. split; [reflexivity|].
  intros Hd. subst keywords. rewrite Hd. reflexivity.
Qed.

End Scenario.

(* ===================================================================== *)
(** * The progress bar                                                    *)
(* ===================================================================== *)

Lemma StronglySorted_filter {A : Type} (R : A -> A -> Prop) (f : A -> bool)
    (l : list A) :
  StronglySorted R l -> StronglySorted R (filter f l).
Proof.
  induction 1 as [|x l Hl IH Hx]; simpl; [constructor|].
  destruct (f x); [|exact IH]. constructor; [exact IH|].
  apply Forall_forall. intros y Hy. apply filter_In in Hy.
  rewrite Forall_forall in Hx. now apply Hx.
Qed.

Lemma StronglySorted_map {A B : Type} (R : A -> A -> Prop) (R' : B -> B -> Prop)
    (g : A -> B) (l : list A) :
  (forall x y, R x y -> R' (g x) (g y)) ->
  StronglySorted R l -> StronglySorted R' (map g l).
Proof.
  intros Hg. induction 1 as [|x l Hl IH Hx]; simpl; constructor; [exact IH|].
  apply Forall_map. eapply Forall_impl; [|exact Hx]. intros y. apply Hg.
Qed.

(** [enumerate] numbers the items upwards. *)
Lemma enumerate_increasing {A : Type} (l : list A) :
  StronglySorted (fun x y : nat * A => fst x < fst y) (enumerate l).
Proof.
  unfold enumerate. generalize 0.
  induction l as [|x l IH]; intros a; simpl; constructor; [apply IH|].
  apply Forall_forall. intros [i y] Hy. apply in_combine_l in Hy.
  apply in_seq in Hy. simpl. lia.
Qed.

Lemma fraction_le (i j total : nat) :
  i <= j -> (fraction i total <= fraction j total)%Q.
Proof.
  intros Hij. unfold fraction. rewrite !Qred_correct.
  unfold Qle. cbn [Qnum Qden].
  apply Z.mul_le_mono_nonneg_r; lia.
Qed.

Lemma fraction_nonneg (i total : nat) : (0 <= fraction i total)%Q.
Proof.
  unfold fraction. rewrite Qred_correct. unfold Qle. cbn [Qnum Qden]. lia.
Qed.

Lemma progress_values_app (t1 t2 : list event) :
  progress_values (t1 ++ t2) = progress_values t1 ++ progress_values t2.
Proof. unfold progress_values. apply flat_map_app. Qed.

Section Progress.

Variable U : unicode_db.
Variable tensor : Type.
Variable cos_sim : tensor -> tensor -> pyfloat.
Variable W : world tensor.
Variable inp : inputs.
Variable model : sentence_model tensor.
Variable keywords : list pystr.
Variable total : nat.

Local Notation "'body'" := (loop_body U cos_sim W inp model keywords total).

Lemma loop_body_progress (st : loop_state) (i : nat) (filename : pystr) :
  progress_values (log (body st (i, filename)))
  = progress_values (log st)
    ++ (if reports U cos_sim W inp model keywords filename
        then [fraction i total]
        else []).
Proof.
  unfold loop_body, reports, count_of, text_of, path_of.
  destruct (process_file U W (path_join (folder_path inp) filename)
              (file_type_of U filename)) as [text warnings] eqn:E; cbn [fst].
  assert (Hw : progress_values warnings = []).
  { unfold process_file in E.
    destruct (process_file_body U W _ _); injection E as <- <-; reflexivity. }
  assert (Hcall : progress_values
                    (call_process_file (path_join (folder_path inp) filename)
                       (file_type_of U filename) :: warnings) = []).
  { change (progress_values (call_process_file _ _ :: warnings))
      with (progress_values warnings). exact Hw. }
  destruct (truthy text); cbn [negb andb].
  2: { cbn [emit log]. now rewrite progress_values_app, Hcall. }
  destruct (analyze_resume U cos_sim model text keywords) as [matches score];
    cbn [fst].
  destruct (matches <? min_matches inp)%Z; cbn [negb].
  - cbn [emit log]. rewrite !progress_values_app, Hcall.
    cbn [progress_values flat_map app]. now rewrite !app_nil_r.
  - destruct (float_ge score (min_score inp)); cbn [append emit log];
      rewrite !progress_values_app, Hcall; cbn [progress_values flat_map app];
      now rewrite !app_nil_r.
Qed.

(** The bar is updated for the files that reach the end of the loop body,
    with [(i + 1) / total] for the file of index [i]. *)
Lemma loop_progress (items : list (nat * pystr)) (st : loop_state) :
  progress_values (log (fold_left body items st))
  = progress_values (log st)
    ++ map (fun item => fraction (fst item) total)
           (filter (fun item => reports U cos_sim W inp model keywords (snd item))
                   items).
Proof.
  revert st; induction items as [|[i filename] items IH]; intros st; cbn [fold_left].
  - simpl. now rewrite app_nil_r.
  - rewrite IH, loop_body_progress. cbn [filter snd fst].
    destruct (reports U cos_sim W inp model keywords filename); cbn [map];
      rewrite <- app_assoc; reflexivity.
Qed.

End Progress.

Section ProgressOfRuns.

Variable U : unicode_db.
Variable tensor : Type.
Variable cos_sim : tensor -> tensor -> pyfloat.
Variable W : world tensor.

(** What holds of the bar in every run: the values it is given never
    decrease. *)
Lemma progress_never_decreases (inp : inputs) :
  StronglySorted Qle (progress_values (fst (main U cos_sim W inp))).
Proof.
  unfold main, load_models.
  destruct (SentenceTransformer W _) as [model|e]; [|repeat constructor].
  destruct (button inp && truthy (job_title inp) && truthy (folder_path inp)
            && path_exists W (folder_path inp)).
  2: { destruct (negb (path_exists W (folder_path inp))); repeat constructor. }
  unfold analyse.
  destruct (listdir W (folder_path inp)) as [names|e]; [|repeat constructor].
  destruct (filter (qualifies U) names) as [|f fs] eqn:Ef; [repeat constructor|].
  set (st := fold_left _ _ _).
  assert (Hst : StronglySorted Qle (progress_values (log st))).
  { subst st. rewrite loop_progress. cbn [log progress_values flat_map app].
    constructor.
    - eapply StronglySorted_map; [|apply StronglySorted_filter, enumerate_increasing].
      intros x y Hxy. apply fraction_le. cbv beta in Hxy. lia.
    - apply Forall_map, Forall_forall. intros item _. apply fraction_nonneg. }
  destruct (results st); cbn [fst app]; rewrite progress_values_app;
    cbn [progress_values flat_map]; rewrite app_nil_r; exact Hst.
Qed.

End ProgressOfRuns.

(** C2 as stated fails: the text has the title three times, the run shows
    exactly one entry, and its match count is 1, not 3 or more. *)
Lemma single_pdf_three_occurrences_one_match :
  occurrences (job_title Demo.dev_inputs) (str "Dev Dev Dev") = 3
  /\ text_of AsciiDb.db Demo.one_pdf Demo.dev_inputs (str "cv.pdf")
     = str "Dev Dev Dev"
  /\ map Matches (ranked_list (snd (main AsciiDb.db (Demo.similarity [])
                                      Demo.one_pdf Demo.dev_inputs)))
     = [1%Z]
  /\ ~ (exists r,
          ranked_list (snd (main AsciiDb.db (Demo.similarity [])
                              Demo.one_pdf Demo.dev_inputs)) = [r]
          /\ (3 <= Matches r)%Z).
Proof.
  split; [reflexivity|]. split; [reflexivity|]. split; [reflexivity|].
  intros [r [Hr Hm]]. rewrite demo_one_pdf_run in Hr. cbn [snd ranked_list] in Hr.
  injection Hr as <-. cbn [Matches] in Hm. lia.
Qed.

Lemma single_pdf_scenario_witness :
  exists r,
    snd (main AsciiDb.db (Demo.similarity []) Demo.one_pdf Demo.dev_inputs)
    = Ranked [r]
    /\ Arquivo r = str "cv.pdf"
    /\ Texto r = str "Dev Dev Dev"
    /\ (1 <= Matches r)%Z
    /\ Matches r
       = (1 + Z.of_nat (length (filter (fun k => str_in k (str "Dev Dev Dev"))
                                  (tl (job_keywords AsciiDb.db
                                         (job_title Demo.dev_inputs)
                                         (job_desc Demo.dev_inputs))))))%Z
    /\ (job_desc Demo.dev_inputs = [] -> Matches r = 1%Z).
Proof.
  apply (@single_pdf_scenario AsciiDb.db pystr (Demo.similarity []) Demo.one_pdf
           Demo.dev_inputs Demo.model [str "cv.pdf"] (str "cv.pdf")
           (str "Dev Dev Dev")); reflexivity.
Defined.

(** C6 fails on the code: of two listed files the second has no text; the
    bar gets 0 and then 1/2 after the first file, nothing after the second,
    and never 1. Both [continue] statements of the loop skip the update. *)
Lemma progress_not_reported_after_skipped_file :
  filter (qualifies AsciiDb.db) [str "a.pdf"; str "b.pdf"]
  = [str "a.pdf"; str "b.pdf"]
  /\ progress_values (fst (main AsciiDb.db (Demo.similarity [])
                             Demo.second_empty Demo.dev_inputs))
     = [0%Q; (1 # 2)%Q]
  /\ ~ In 1%Q (progress_values (fst (main AsciiDb.db (Demo.similarity [])
                                       Demo.second_empty Demo.dev_inputs))).
Proof.
  split; [reflexivity|]. split; [reflexivity|].
  intros [H|[H|[]]]; discriminate.
Qed.

(** C7 as stated fails: for the keyword list with the one keyword "Dev" the
    model is given the text ['Dev'], not Dev, and a model that tells the two
    texts apart gives another score. *)
Lemma profile_text_is_not_the_concatenation :
  repr_list AsciiDb.db [str "Dev"] = str "['Dev']"
  /\ concat [str "Dev"] = str "Dev"
  /\ snd (analyze_resume AsciiDb.db Demo.probe Demo.model (str "Dev") [str "Dev"])
     = Demo.zero
  /\ Demo.probe (encode Demo.model (concat [str "Dev"]))
                (encode Demo.model (str "Dev"))
     = Demo.one
  /\ snd (analyze_resume AsciiDb.db Demo.probe Demo.model (str "Dev") [str "Dev"])
     <> Demo.probe (encode Demo.model (concat [str "Dev"]))
                   (encode Demo.model (str "Dev")).
Proof.
  repeat (split; [reflexivity|]). discriminate.
Qed.

Lemma empty_text_witness :
  (forall text,
      ~ In (call_analyze_resume (str "b.pdf") text)
           (fst (main AsciiDb.db (Demo.similarity []) Demo.second_empty
                   Demo.dev_inputs)))
  /\ (forall r,
        In r (ranked_list (snd (main AsciiDb.db (Demo.similarity [])
                                  Demo.second_empty Demo.dev_inputs))) ->
        Arquivo r <> str "b.pdf").
Proof.
  apply (@empty_text_never_scored_nor_ranked AsciiDb.db pystr (Demo.similarity [])
           Demo.second_empty Demo.dev_inputs (str "b.pdf")).
  reflexivity.
Defined.

Lemma ranking_witness :
  exists model names,
    SentenceTransformer Demo.three_pdfs model_name = Done model /\
    listdir Demo.three_pdfs (folder_path Demo.dev_inputs) = Done names /\
    Permutation
      (ranked_list (snd (main AsciiDb.db (Demo.similarity Demo.b_scores_one)
                           Demo.three_pdfs Demo.dev_inputs)))
      (accepted AsciiDb.db (Demo.similarity Demo.b_scores_one) Demo.three_pdfs
         Demo.dev_inputs model names) /\
    (forall pre a b post,
        ranked_list (snd (main AsciiDb.db (Demo.similarity Demo.b_scores_one)
                            Demo.three_pdfs Demo.dev_inputs))
        = pre ++ a :: b :: post ->
        float_ge (Score a) (Score b) = true) /\
    (forall s,
        with_key Score s
          (ranked_list (snd (main AsciiDb.db (Demo.similarity Demo.b_scores_one)
                               Demo.three_pdfs Demo.dev_inputs)))
        = with_key Score s
            (accepted AsciiDb.db (Demo.similarity Demo.b_scores_one)
               Demo.three_pdfs Demo.dev_inputs model names)).
Proof.
  apply (@ranking_sorted_and_stable AsciiDb.db pystr
           (Demo.similarity Demo.b_scores_one) Demo.three_pdfs Demo.dev_inputs).
  reflexivity.
Defined.

Lemma extraction_failure_witness :
  process_file AsciiDb.db Demo.first_broken (str "/cv/a.pdf") (str "pdf")
  = ([], [st_warning (msg_process_failed (str "a.pdf") (str "No /Root object"))]).
Proof.
  apply (@extraction_failure_is_recovered AsciiDb.db pystr (Demo.similarity [])
           Demo.first_broken Demo.dev_inputs Demo.model [str "Dev"] 2
           (str "a.pdf") (str "No /Root object")).
  reflexivity.
Defined.

Lemma no_candidate_files_witness :
  main AsciiDb.db (Demo.similarity []) Demo.no_resumes Demo.dev_inputs
  = ([st_error msg_no_files], NoCandidateFiles).
Proof.
  apply (@no_candidate_files_stops AsciiDb.db pystr (Demo.similarity [])
           Demo.no_resumes Demo.dev_inputs Demo.model
           [str "notes.txt"; str "photo.PNG"]);
    try reflexivity; try discriminate.
  intros f [<-|[<-|[]]]; reflexivity.
Defined.

(* ===================================================================== *)
(** * Extraction: what [process_file] returns                             *)
(* ===================================================================== *)

Section Strip.

Variable p : char -> bool.

Lemma lstrip_by_head (s : pystr) (c : char) (r : pystr) :
  lstrip_by p s = c :: r -> p c = false.
Proof.
  induction s as [|d s IH]; simpl; [discriminate|].
  destruct (p d) eqn:E; [exact IH|]. intros H. injection H as <- _. exact E.
Qed.

Lemma lstrip_by_suffix (s : pystr) :
  exists pre, s = pre ++ lstrip_by p s /\ forallb p pre = true.
Proof.
  induction s as [|d s [pre [Hs Hp]]]; simpl.
  - exists []. split; reflexivity.
  - destruct (p d) eqn:E.
    + exists (d :: pre). simpl. rewrite E, Hp. split; [now rewrite <- Hs | reflexivity].
    + exists []. split; reflexivity.
Qed.

Lemma lstrip_by_fixed (s : pystr) :
  (forall c r, s = c :: r -> p c = false) -> lstrip_by p s = s.
Proof.
  destruct s as [|d s]; [reflexivity|]. intros H. simpl.
  now rewrite (H d s eq_refl).
Qed.

Lemma lstrip_by_all (s : pystr) : forallb p s = true -> lstrip_by p s = [].
Proof.
  induction s as [|d s IH]; simpl; [reflexivity|].
  intros H. apply andb_true_iff in H. destruct H as [Hd Hs]. rewrite Hd. now apply IH.
Qed.

Lemma forallb_rev (s : pystr) : forallb p s = true -> forallb p (rev s) = true.
Proof.
  rewrite !forallb_forall. intros H c Hc. apply H. now apply in_rev.
Qed.

Lemma strip_by_trimmed (s : pystr) : trimmed p (strip_by p s).
Proof.
  unfold strip_by. split.
  - intros c r E.
    destruct (lstrip_by_suffix (rev (lstrip_by p s))) as [pre [Hpre _]].
    apply (f_equal (@rev char)) in E. rewrite rev_involutive in E. simpl in E.
    rewrite E in Hpre. apply (f_equal (@rev char)) in Hpre.
    rewrite rev_involutive, !rev_app_distr in Hpre. simpl in Hpre.
    exact (lstrip_by_head _ Hpre).
  - intros r c E.
    apply (f_equal (@rev char)) in E. rewrite rev_involutive, rev_app_distr in E.
    simpl in E. exact (lstrip_by_head _ E).
Qed.

Lemma strip_by_fixed (s : pystr) : trimmed p s -> strip_by p s = s.
Proof.
  intros [Hhead Hlast]. unfold strip_by.
  rewrite (lstrip_by_fixed Hhead), lstrip_by_fixed; [apply rev_involutive|].
  intros c r E. apply (Hlast (rev r) c).
  apply (f_equal (@rev char)) in E. rewrite rev_involutive in E. exact E.
Qed.

Lemma strip_by_piece (s : pystr) :
  exists pre post,
    s = pre ++ strip_by p s ++ post
    /\ forallb p pre = true /\ forallb p post = true.
Proof.
  unfold strip_by.
  destruct (lstrip_by_suffix s) as [pre [Hs Hpre]].
  destruct (lstrip_by_suffix (rev (lstrip_by p s))) as [post [Hr Hpost]].
  exists pre, (rev post). repeat split; [|assumption | now apply forallb_rev].
  rewrite <- rev_app_distr, <- Hr, rev_involutive. exact Hs.
Qed.

Lemma strip_by_all (s : pystr) : forallb p s = true -> strip_by p s = [].
Proof. intros H. unfold strip_by. now rewrite (lstrip_by_all _ H). Qed.

End Strip.

Section Extraction.

Variable U : unicode_db.
Variable tensor : Type.
Variable W : world tensor.

(** [process_file] returns the empty string or a stripped text. *)
Lemma process_file_cases (file_path file_type : pystr) :
  fst (process_file U W file_path file_type) = []
  \/ exists text, fst (process_file U W file_path file_type) = strip U text.
Proof.
  unfold process_file, process_file_body.
  destruct (str_eqb file_type (str "pdf")).
  - destruct (pdf_pages W file_path) as [pages|e]; cbn [bind fst]; [|now left].
    destruct (join _ _) as [|c text] eqn:E; [now left|].
    destruct (word_tokenize W (c :: text)); cbn [bind fst]; [|now left].
    right. now exists (c :: text).
  - destruct (docx_paragraphs W file_path) as [ps|e]; cbn [bind fst]; [|now left].
    destruct (join _ _) as [|c text] eqn:E; [now left|].
    destruct (word_tokenize W (c :: text)); cbn [bind fst]; [|now left].
    right. now exists (c :: text).
Qed.

(** The text [process_file] returns has no whitespace at either end, so
    stripping it again changes nothing. *)
Theorem extracted_text_is_trimmed (file_path file_type : pystr) :
  trimmed (py_isspace U) (fst (process_file U W file_path file_type))
  /\ strip U (fst (process_file U W file_path file_type))
     = fst (process_file U W file_path file_type).
Proof.
  assert (Ht : trimmed (py_isspace U) (fst (process_file U W file_path file_type))).
  { destruct (process_file_cases file_path file_type) as [-> | [text ->]].
    - split; [discriminate|]. intros [|d r] c E; discriminate.
    - apply strip_by_trimmed. }
  split; [exact Ht|]. unfold strip. now apply strip_by_fixed.
Qed.

Lemma join_blank_pages (pages : list (option pystr)) :
  forallb blank_page pages = true ->
  forallb (N.eqb 10)
    (join [10%N] (map (fun page => match page with
                                   | Some t => t
                                   | None => []
                                   end) pages)) = true.
Proof.
  induction pages as [|pg rest IH]; [reflexivity|].
  intros H. cbn [forallb] in H. apply andb_true_iff in H. destruct H as [Hpg Hrest].
  specialize (IH Hrest).
  destruct pg as [[|c t]|]; try discriminate;
    (destruct rest as [|pg' rest]; [reflexivity | simpl in IH |- *; exact IH]).
Qed.

(** A PDF none of whose pages has text (a scanned document, say) yields the
    empty string, however many pages it has, when the newline is
    whitespace for [strip]; the loop then skips the file. *)
Theorem pdf_without_text_yields_empty (file_path : pystr)
    (pages : list (option pystr)) :
  py_isspace U 10%N = true ->
  pdf_pages W file_path = Done pages ->
  forallb blank_page pages = true ->
  fst (process_file U W file_path (str "pdf")) = [].
Proof.
  intros Hnl Hpages Hblank.
  unfold process_file, process_file_body.
  change (str_eqb (str "pdf") (str "pdf")) with true. cbv iota.
  rewrite Hpages. cbn [bind].
  pose proof (join_blank_pages pages Hblank) as Hall.
  destruct (join _ _) as [|c text] eqn:E; [reflexivity|].
  destruct (word_tokenize W (c :: text)); cbn [bind fst]; [|reflexivity].
  unfold strip. apply strip_by_all.
  rewrite forallb_forall in Hall |- *. intros d Hd.
  specialize (Hall d Hd). apply N.eqb_eq in Hall. now subst d.
Qed.

End Extraction.

(* ===================================================================== *)
(** * Paths                                                               *)
(* ===================================================================== *)

Lemma span_app_stop (q : char -> bool) (w rest : pystr) :
  forallb q w = true ->
  (forall c r, rest = c :: r -> q c = false) ->
  span q (w ++ rest) = (w, rest).
Proof.
  intros Hw Hrest. induction w as [|d w IH]; simpl.
  - destruct rest as [|c r]; [reflexivity|]. simpl. now rewrite (Hrest c r eq_refl).
  - simpl in Hw. apply andb_true_iff in Hw. destruct Hw as [Hd Hw].
    rewrite Hd, (IH Hw). reflexivity.
Qed.

(** The base name of the path built for a listed file is the listed name
    (a listed name has no slash), so the warning of [process_file] names
    the file as the folder lists it. *)
Theorem basename_of_joined_path (folder name : pystr) :
  forallb (fun c => negb (N.eqb c slash)) name = true ->
  basename (path_join folder name) = name.
Proof.
  intros Hname.
  assert (Hbase : forall pre,
            (forall c r, rev pre = c :: r -> c = slash) ->
            basename (pre ++ name) = name).
  { intros pre Hpre. unfold basename. rewrite rev_app_distr.
    rewrite span_app_stop; [apply rev_involutive | |].
    - now apply forallb_rev.
    - intros c r E. rewrite (Hpre c r E). now rewrite N.eqb_refl. }
  unfold path_join.
  assert (Hstart : startswith name [slash] = false).
  { destruct name as [|c name]; [reflexivity|]. cbn [forallb startswith] in Hname |- *.
    apply andb_true_iff in Hname. destruct Hname as [Hc _].
    apply negb_true_iff in Hc. rewrite N.eqb_sym, Hc. reflexivity. }
  rewrite Hstart. destruct folder as [|a folder].
  - apply (Hbase []). intros c r E. discriminate.
  - destruct (endswith (a :: folder) [slash]) eqn:Eend.
    + apply Hbase. intros c r E. unfold endswith in Eend. rewrite E in Eend.
      cbn [rev app startswith] in Eend. rewrite andb_true_r in Eend.
      apply N.eqb_eq in Eend. now subst c.
    + rewrite app_assoc. apply Hbase. intros c r E.
      rewrite rev_app_distr in E. simpl in E. now injection E as <- _.
Qed.

(* ===================================================================== *)
(** * The trace of a run                                                  *)
(* ===================================================================== *)



Section LoopTrace.

Variable U : unicode_db.
Variable tensor : Type.
Variable cos_sim : tensor -> tensor -> pyfloat.
Variable W : world tensor.
Variable inp : inputs.
Variable model : sentence_model tensor.
Variable keywords : list pystr.
Variable total : nat.

Local Notation "'body'" := (loop_body U cos_sim W inp model keywords total).
Local Notation "'step'" := (step_trace U cos_sim W inp model keywords total).

Lemma loop_body_log (st : loop_state) (item : nat * pystr) :
  log (body st item) = log st ++ step item.
Proof.
  destruct item as [i filename].
  unfold loop_body, step_trace, reports, count_of, text_of, path_of.
  destruct (process_file U W (path_join (folder_path inp) filename)
              (file_type_of U filename)) as [text warnings]; cbn [fst snd].
  destruct (truthy text); cbn [negb andb].
  2: { cbn [emit log]. now rewrite app_nil_r. }
  destruct (analyze_resume U cos_sim model text keywords) as [matches score];
    cbn [fst].
  destruct (matches <? min_matches inp)%Z; cbn [negb].
  - cbn [emit log]. rewrite <- app_assoc. reflexivity.
  - destruct (float_ge score (min_score inp)); cbn [append emit log];
      rewrite <- !app_assoc; reflexivity.
Qed.

(** The trace of the loop is the concatenation of its steps' traces. *)
Lemma loop_log (items : list (nat * pystr)) (st : loop_state) :
  log (fold_left body items st) = log st ++ flat_map step items.
Proof.
  revert st; induction items as [|item items IH]; intros st; cbn [fold_left flat_map].
  - now rewrite app_nil_r.
  - rewrite IH, loop_body_log, <- app_assoc. reflexivity.
Qed.






End LoopTrace.

Section TracesOfRuns.

Variable U : unicode_db.
Variable tensor : Type.
Variable cos_sim : tensor -> tensor -> pyfloat.
Variable W : world tensor.

(** The whole trace of the [try] block when the folder can be listed. *)
Lemma analyse_trace (inp : inputs) (model : sentence_model tensor)
    (names : list pystr) :
  listdir W (folder_path inp) = Done names ->
  fst (analyse U cos_sim W inp model)
  = match filter (qualifies U) names with
    | [] => [st_error msg_no_files]
    | valid_files =>
        [st_progress 0]
        ++ flat_map (step_trace U cos_sim W inp model
                       (job_keywords U (job_title inp) (job_desc inp))
                       (length valid_files))
                    (enumerate valid_files)
        ++ [match accepted U cos_sim W inp model names with
            | [] => st_warning msg_none_qualified
            | found => st_success (msg_found (length found))
            end]
    end.
Proof.
  intros Hls. unfold analyse. rewrite Hls.
  destruct (filter (qualifies U) names) as [|f fs] eqn:Ef; [reflexivity|].
  rewrite loop_results, loop_log, enumerate_snd. cbn [results log app].
  unfold accepted. rewrite Ef.
  set (found := map _ (filter _ (f :: fs))).
  assert (Hlen : length (sorted Score true found) = length found).
  { apply Permutation_length.
    pose proof (accepted_numbers U cos_sim W inp model names) as Hn.
    unfold accepted in Hn. rewrite Ef in Hn.
    exact (proj1 (sorted_reverse_spec Hn)). }
  destruct found as [|r found]; cbn [fst]; [reflexivity|].
  rewrite Hlen. reflexivity.
Qed.

Lemma main_triggered (inp : inputs) (model : sentence_model tensor) :
  SentenceTransformer W model_name = Done model ->
  triggered W inp = true ->
  main U cos_sim W inp = analyse U cos_sim W inp model.
Proof.
  intros Hm Ht. unfold main, load_models. fold model_name. rewrite Hm.
  unfold triggered in Ht. rewrite Ht.
  destruct (analyse U cos_sim W inp model); reflexivity.
Qed.



End TracesOfRuns.

(* ===================================================================== *)
(** * How a run ends                                                      *)
(* ===================================================================== *)

Section Verdicts.

Variable U : unicode_db.
Variable tensor : Type.
Variable cos_sim : tensor -> tensor -> pyfloat.
Variable W : world tensor.

(** In a triggered run that lists the folder, the ranked list is a
    rearrangement of what the loop accepted. *)
Lemma ranked_list_accepted (inp : inputs) (model : sentence_model tensor)
    (names : list pystr) :
  SentenceTransformer W model_name = Done model ->
  triggered W inp = true ->
  listdir W (folder_path inp) = Done names ->
  Permutation (ranked_list (snd (main U cos_sim W inp)))
              (accepted U cos_sim W inp model names).
Proof.
  intros Hm Ht Hls.
  rewrite (main_triggered U cos_sim W inp Hm Ht),
    (analyse_verdict U cos_sim W inp model Hls).
  destruct (filter (qualifies U) names) as [|f fs] eqn:Ef.
  - unfold accepted. rewrite Ef. reflexivity.
  - destruct (accepted U cos_sim W inp model names) as [|r rs] eqn:Ea; [reflexivity|].
    cbn [ranked_list]. rewrite <- Ea.
    exact (proj1 (sorted_reverse_spec (accepted_numbers U cos_sim W inp model names))).
Qed.

Lemma analyse_verdict_cases (inp : inputs) (model : sentence_model tensor) :
  (exists e, snd (analyse U cos_sim W inp model) = UnexpectedRuntimeFailure e)
  \/ snd (analyse U cos_sim W inp model) = NoCandidateFiles
  \/ snd (analyse U cos_sim W inp model) = NoQualifyingCandidates
  \/ exists r rs, snd (analyse U cos_sim W inp model) = Ranked (r :: rs).
Proof.
  destruct (listdir W (folder_path inp)) as [names|e] eqn:Hls.
  2: { left. exists e. unfold analyse. now rewrite Hls. }
  right. rewrite (analyse_verdict U cos_sim W inp model Hls).
  destruct (filter (qualifies U) names); [now left|]. right.
  destruct (accepted U cos_sim W inp model names) as [|r rs] eqn:Ea; [now left|].
  right.
  pose proof (proj1 (sorted_reverse_spec
                       (accepted_numbers U cos_sim W inp model names))) as Hp.
  rewrite Ea in Hp.
  destruct (sorted Score true (r :: rs)) as [|r' rs'] eqn:Es.
  - apply Permutation_nil in Hp. discriminate.
  - now exists r', rs'.
Qed.


(** The missing-folder error is shown exactly when the model loaded and
    the folder does not exist, whether or not the button was clicked or a
    title given; the run then shows nothing else. *)
Theorem folder_not_found_exactly_when_missing (inp : inputs) :
  (snd (main U cos_sim W inp) = FolderNotFound
   <-> (exists model, SentenceTransformer W model_name = Done model)
       /\ path_exists W (folder_path inp) = false)
  /\ (snd (main U cos_sim W inp) = FolderNotFound ->
      fst (main U cos_sim W inp) = [st_error msg_folder_missing]).
Proof.
  assert (Hnot : forall model, triggered W inp = true ->
            snd (analyse U cos_sim W inp model) <> FolderNotFound).
  { intros model _ H.
    destruct (analyse_verdict_cases inp model)
      as [[e He]|[He|[He|[r [rs He]]]]]; rewrite He in H; discriminate. }
  split.
  - rewrite main_verdict.
    destruct (SentenceTransformer W model_name) as [model|e].
    2: { split; [discriminate | intros [[model Hm] _]; discriminate]. }
    destruct (triggered W inp) eqn:Ht.
    + split; [intros H; now apply Hnot in H|].
      intros [_ He]. unfold triggered in Ht. rewrite He, andb_false_r in Ht.
      discriminate.
    + destruct (path_exists W (folder_path inp)); cbn [negb].
      * split; [discriminate | intros [_ H]; discriminate].
      * split; [intros _; split; [now exists model | reflexivity] | reflexivity].
  - unfold main, load_models. fold model_name.
    destruct (SentenceTransformer W model_name) as [model|e]; [|discriminate].
    fold (triggered W inp). destruct (triggered W inp) eqn:Ht.
    + pose proof (Hnot model eq_refl) as Hn.
      destruct (analyse U cos_sim W inp model) as [trace v]. cbn [snd] in *.
      intros H. contradiction.
    + destruct (negb (path_exists W (folder_path inp))); [reflexivity | discriminate].
Qed.

(** A ranking is never empty; the number in the success message is its
    length, and it is at most the number of qualifying files. *)
Theorem ranking_is_never_empty (inp : inputs) (ranking : list entry) :
  snd (main U cos_sim W inp) = Ranked ranking ->
  ranking <> []
  /\ In (st_success (msg_found (length ranking))) (fst (main U cos_sim W inp))
  /\ exists names,
       listdir W (folder_path inp) = Done names
       /\ length ranking <= length (filter (qualifies U) names).
Proof.
  intros Hv. pose proof Hv as Hr. apply main_ranked in Hr.
  destruct Hr as [model [names [Hm [Ht [Hls Hr]]]]].
  pose proof (ranked_list_accepted inp Hm Ht Hls) as Hp.
  rewrite Hv in Hp. cbn [ranked_list] in Hp.
  assert (Hne : ranking <> []).
  { rewrite (main_triggered U cos_sim W inp Hm Ht),
      (analyse_verdict U cos_sim W inp model Hls) in Hv.
    destruct (filter (qualifies U) names); [discriminate|].
    destruct (accepted U cos_sim W inp model names) eqn:Ea; [discriminate|].
    intros ->. apply Permutation_nil in Hp. discriminate. }
  split; [exact Hne|]. split.
  - rewrite (main_triggered U cos_sim W inp Hm Ht),
      (analyse_trace U cos_sim W inp model Hls).
    destruct (filter (qualifies U) names) as [|f fs] eqn:Ef.
    { unfold accepted in Hp. rewrite Ef in Hp.
      apply Permutation_sym, Permutation_nil in Hp. contradiction. }
    rewrite (Permutation_length Hp).
    destruct (accepted U cos_sim W inp model names) as [|r rs] eqn:Ea.
    { apply Permutation_sym, Permutation_nil in Hp. contradiction. }
    apply in_or_app. right. apply in_or_app. right. now left.
  - exists names. split; [exact Hls|].
    rewrite (Permutation_length Hp). unfold accepted.
    rewrite length_map. apply filter_length_le.
Qed.



(** No ranked score is a NaN, and with a NaN as the score threshold the
    ranked list is empty. *)
Theorem nan_is_never_ranked (inp : inputs) :
  Forall (fun r => is_number (Score r) = true)
         (ranked_list (snd (main U cos_sim W inp)))
  /\ (is_number (min_score inp) = false ->
      ranked_list (snd (main U cos_sim W inp)) = []).
Proof.
  assert (Hall : Forall (meets inp) (ranked_list (snd (main U cos_sim W inp)))).
  { destruct (snd (main U cos_sim W inp)) as [| | | | |ranking|e] eqn:Ev;
      try (cbn [ranked_list]; constructor).
    apply main_ranked in Ev. destruct Ev as [model [names [_ [_ [_ ->]]]]].
    cbn [ranked_list].
    eapply Permutation_Forall;
      [symmetry; exact (proj1 (sorted_reverse_spec
                                 (accepted_numbers U cos_sim W inp model names)))|].
    apply accepted_meets. }
  split.
  - eapply Forall_impl; [|exact Hall]. intros r [_ Hs].
    now apply float_ge_number in Hs.
  - intros Hnan. destruct (ranked_list (snd (main U cos_sim W inp))) as [|r rs];
      [reflexivity|].
    inversion Hall as [|? ? [_ Hs] _]; subst. apply float_ge_number in Hs.
    destruct Hs as [_ Hs]. rewrite Hs in Hnan. discriminate.
Qed.

Lemma accepted_stricter (inp inp' : inputs) (model : sentence_model tensor)
    (names : list pystr) :
  same_request inp inp' ->
  (min_matches inp <= min_matches inp')%Z ->
  float_ge (min_score inp') (min_score inp) = true ->
  incl (accepted U cos_sim W inp' model names) (accepted U cos_sim W inp model names).
Proof.
  destruct inp as [ms mm jt jd fp b], inp' as [ms' mm' jt' jd' fp' b'].
  unfold same_request. cbn [button job_title job_desc folder_path min_matches min_score].
  intros [-> [-> [-> ->]]] Hmm Hms r Hr.
  unfold accepted in *. cbn [job_title job_desc] in *.
  apply in_map_iff in Hr. destruct Hr as [f [<- Hf]].
  apply filter_In in Hf. destruct Hf as [Hq Hpass].
  apply in_map_iff. exists f. split; [reflexivity|].
  apply filter_In. split; [exact Hq|].
  unfold passes, count_of, score_of, text_of, path_of in *.
  cbn [folder_path min_matches min_score] in *.
  rewrite !andb_true_iff, negb_true_iff in *.
  destruct Hpass as [[Ht Hc] Hs]. repeat split; [exact Ht | |].
  - apply Z.ltb_ge. apply Z.ltb_ge in Hc. lia.
  - eapply float_ge_trans; [exact Hs | exact Hms].
Qed.

(** Raising a threshold never adds an entry: with the same request, every
    entry ranked under the stricter thresholds is ranked under the looser
    ones. *)
Theorem stricter_thresholds_rank_fewer (inp inp' : inputs) :
  same_request inp inp' ->
  (min_matches inp <= min_matches inp')%Z ->
  float_ge (min_score inp') (min_score inp) = true ->
  incl (ranked_list (snd (main U cos_sim W inp')))
       (ranked_list (snd (main U cos_sim W inp))).
Proof.
  intros Hsame Hmm Hms.
  pose proof Hsame as [Hb [Hjt [Hjd Hfp]]].
  assert (Htrig : triggered W inp' = triggered W inp).
  { unfold triggered. now rewrite Hb, Hjt, Hfp. }
  intros r Hr.
  destruct (snd (main U cos_sim W inp')) as [| | | | |ranking|e] eqn:Ev;
    try contradiction.
  cbn [ranked_list] in Hr. apply main_ranked in Ev.
  destruct Ev as [model [names [Hm [Ht [Hls ->]]]]].
  rewrite Htrig in Ht. rewrite <- Hfp in Hls.
  apply (Permutation_in _ (proj1 (sorted_reverse_spec
           (accepted_numbers U cos_sim W inp' model names)))) in Hr.
  apply (accepted_stricter model names Hsame Hmm Hms) in Hr.
  apply (Permutation_in _ (Permutation_sym (ranked_list_accepted inp Hm Ht Hls))).
  exact Hr.
Qed.

End Verdicts.

(* ===================================================================== *)
(** * The values given to the progress bar                                *)
(* ===================================================================== *)

Lemma pos_of_nat_Z (n : nat) : n <> 0 -> Z.pos (Pos.of_nat n) = Z.of_nat n.
Proof. intros H. now rewrite <- positive_nat_Z, Nat2Pos.id. Qed.

Lemma fraction_le_one (i total : nat) :
  i < total -> (fraction i total <= 1)%Q.
Proof.
  intros Hi. unfold fraction. rewrite Qred_correct.
  unfold Qle. cbn [Qnum Qden]. rewrite pos_of_nat_Z by lia. lia.
Qed.


Lemma enumerate_index {A : Type} (l : list A) (i : nat) (x : A) :
  In (i, x) (enumerate l) -> i < length l /\ nth_error l i = Some x.
Proof.
  unfold enumerate.
  assert (H : forall a, In (i, x) (combine (seq a (length l)) l) ->
                        a <= i < a + length l /\ nth_error l (i - a) = Some x).
  { induction l as [|y l IH]; intros a; simpl; [intros []|].
    intros [E|Hin].
    - injection E as <- <-. rewrite Nat.sub_diag. split; [lia | reflexivity].
    - apply IH in Hin. destruct Hin as [Hr Hn]. split; [lia|].
      replace (i - a) with (S (i - S a)) by lia. exact Hn. }
  intros Hin. apply H in Hin. rewrite Nat.sub_0_r in Hin. destruct Hin.
  split; [lia | assumption].
Qed.


Section ProgressValues.

Variable U : unicode_db.
Variable tensor : Type.
Variable cos_sim : tensor -> tensor -> pyfloat.
Variable W : world tensor.

(** The values a run gives to the bar: none, or 0 followed by
    [(i + 1) / total] for the files that reach the update. *)
Lemma main_progress_values (inp : inputs) :
  progress_values (fst (main U cos_sim W inp)) = []
  \/ exists model names g gs,
       SentenceTransformer W model_name = Done model
       /\ triggered W inp = true
       /\ listdir W (folder_path inp) = Done names
       /\ filter (qualifies U) names = g :: gs
       /\ progress_values (fst (main U cos_sim W inp))
          = 0%Q :: map (fun item => fraction (fst item) (length (g :: gs)))
                       (filter (fun item =>
                                  reports U cos_sim W inp model
                                    (job_keywords U (job_title inp) (job_desc inp))
                                    (snd item))
                               (enumerate (g :: gs))).
Proof.
  destruct (SentenceTransformer W model_name) as [model|e] eqn:Hm.
  2: { left. unfold main, load_models. fold model_name. now rewrite Hm. }
  destruct (triggered W inp) eqn:Ht.
  2: { left. unfold main, load_models. fold model_name. rewrite Hm.
       fold (triggered W inp). rewrite Ht.
       destruct (negb (path_exists W (folder_path inp))); reflexivity. }
  rewrite (main_triggered U cos_sim W inp Hm Ht).
  destruct (listdir W (folder_path inp)) as [names|e] eqn:Hls.
  2: { left. unfold analyse. now rewrite Hls. }
  destruct (filter (qualifies U) names) as [|g gs] eqn:Ef.
  { left. unfold analyse. now rewrite Hls, Ef. }
  right. exists model, names, g, gs. repeat split; try assumption.
  unfold analyse. rewrite Hls, Ef.
  set (st := fold_left _ _ _).
  assert (Hst : progress_values (log st)
                = 0%Q :: map (fun item => fraction (fst item) (length (g :: gs)))
                           (filter (fun item =>
                                      reports U cos_sim W inp model
                                        (job_keywords U (job_title inp) (job_desc inp))
                                        (snd item))
                                   (enumerate (g :: gs)))).
  { subst st. rewrite loop_progress. reflexivity. }
  destruct (results st); cbn [fst]; rewrite progress_values_app, Hst;
    cbn [progress_values flat_map]; now rewrite app_nil_r.
Qed.

(** The values given to the progress bar never decrease and all lie
    between 0 and 1. *)
Theorem progress_is_ordered_and_bounded (inp : inputs) :
  StronglySorted Qle (progress_values (fst (main U cos_sim W inp)))
  /\ Forall (fun q => (0 <= q)%Q /\ (q <= 1)%Q)
            (progress_values (fst (main U cos_sim W inp))).
Proof.
  split; [apply progress_never_decreases|].
  destruct (main_progress_values inp)
    as [-> | [model [names [g [gs [_ [_ [_ [_ ->]]]]]]]]]; [constructor|].
  constructor; [split; discriminate|].
  apply Forall_map, Forall_forall. intros [i f] Hin. cbn [fst].
  apply filter_In in Hin. destruct Hin as [Hin _].
  apply enumerate_index in Hin. destruct Hin as [Hi _].
  split; [apply fraction_nonneg | now apply fraction_le_one].
Qed.


End ProgressValues.

(* ===================================================================== *)
(** * Ranking again                                                       *)
(* ===================================================================== *)

Lemma float_ge_not_lt (a b : pyfloat) :
  float_ge a b = true -> float_lt a b = false.
Proof.
  intros H. destruct (float_lt a b) eqn:E; [|reflexivity].
  apply float_lt_not_ge in E. rewrite E in H. discriminate.
Qed.

Lemma StronglySorted_before {A : Type} (R : A -> A -> Prop) (l1 l2 : list A) (x : A) :
  StronglySorted R (l1 ++ x :: l2) -> Forall (fun y => R y x) l1.
Proof.
  induction l1 as [|y l1 IH]; simpl; intros H; [constructor|].
  inversion H as [|? ? Hs Hy]; subst. constructor; [|now apply IH].
  rewrite Forall_forall in Hy. apply Hy. apply in_or_app. right. now left.
Qed.

Section SortedAgain.

Variable A : Type.
Variable key : A -> pyfloat.

Lemma insert_last (x : A) (l : list A) :
  Forall (fun y => float_ge (key x) (key y) = true) l ->
  insert key x l = l ++ [x].
Proof.
  induction 1 as [|y l Hy _ IH]; simpl; [reflexivity|].
  now rewrite (float_ge_not_lt _ _ Hy), IH.
Qed.

Lemma sort_loop_ascending (l acc : list A) :
  ascending key (acc ++ l) ->
  fold_left (fun prefix x => insert key x prefix) l acc = acc ++ l.
Proof.
  revert acc; induction l as [|x l IH]; intros acc Hs; cbn [fold_left].
  - now rewrite app_nil_r.
  - rewrite insert_last by exact (StronglySorted_before _ _ _ Hs).
    rewrite IH; rewrite <- app_assoc; [reflexivity | exact Hs].
Qed.

(** Sorting in reverse a list whose keys are already in non-increasing
    order returns the list as it is. *)
Lemma sorted_descending_fixed (l : list A) :
  descending key l -> sorted key true l = l.
Proof.
  intros Hd. unfold sorted, sort_stable.
  rewrite (sort_loop_ascending (rev l) []); [apply rev_involutive|].
  cbn [app]. exact (StronglySorted_rev Hd).
Qed.

End SortedAgain.

(** The ranking a run shows is a fixed point of the sort: sorting it by
    score again, as line 145 does, leaves every entry in its place. *)
Theorem ranking_is_stable_under_resorting (U : unicode_db) (tensor : Type)
    (cos_sim : tensor -> tensor -> pyfloat) (W : world tensor)
    (inp : inputs) (ranking : list entry) :
  snd (main U cos_sim W inp) = Ranked ranking ->
  sorted Score true ranking = ranking.
Proof.
  intros Hv. apply main_ranked in Hv. destruct Hv as [model [names [_ [_ [_ ->]]]]].
  apply sorted_descending_fixed.
  exact (proj1 (proj2 (sorted_reverse_spec
                         (accepted_numbers U cos_sim W inp model names)))).
Qed.

(* ===================================================================== *)
(** * The match count as a function of keywords and text                  *)
(* ===================================================================== *)

Lemma filter_length_perm {A : Type} (f : A -> bool) (l l' : list A) :
  Permutation l l' -> length (filter f l) = length (filter f l').
Proof.
  induction 1 as [|x l l' _ IH|x y l|l l' l'' _ IH1 _ IH2]; simpl.
  - reflexivity.
  - destruct (f x); simpl; now rewrite IH.
  - destruct (f x), (f y); reflexivity.
  - now rewrite IH1.
Qed.

Lemma str_in_trans (k t t' : pystr) :
  str_in k t = true -> str_in t t' = true -> str_in k t' = true.
Proof.
  rewrite !str_in_substring. intros [pre [post ->]] [pre' [post' ->]].
  exists (pre' ++ pre), (post ++ post'). now rewrite <- !app_assoc.
Qed.

Section MatchCount.

Variable U : unicode_db.
Variable tensor : Type.
Variable cos_sim : tensor -> tensor -> pyfloat.
Variable model : sentence_model tensor.

(** The match count adds up over the keyword list and does not depend on
    the order of the keywords; a keyword listed twice counts twice. *)
Theorem match_count_is_additive (text : pystr) (ks ks' : list pystr) :
  fst (analyze_resume U cos_sim model text (ks ++ ks'))
  = (fst (analyze_resume U cos_sim model text ks)
     + fst (analyze_resume U cos_sim model text ks'))%Z
  /\ (Permutation ks ks' ->
      fst (analyze_resume U cos_sim model text ks)
      = fst (analyze_resume U cos_sim model text ks')).
Proof.
  change (fun t k => fst (analyze_resume U cos_sim model t k))
    with (matches_of U cos_sim model).
  split.
  - change (matches_of U cos_sim model text (ks ++ ks')
            = (matches_of U cos_sim model text ks
               + matches_of U cos_sim model text ks')%Z).
    rewrite !matches_length, filter_app, length_app. lia.
  - intros Hp.
    change (matches_of U cos_sim model text ks = matches_of U cos_sim model text ks').
    rewrite !matches_length. f_equal. now apply filter_length_perm.
Qed.

(** A text that contains another matches at least the keywords the other
    matches: adding text to a resume never lowers its match count. *)
Theorem match_count_grows_with_text (text text' : pystr) (keywords : list pystr) :
  str_in text text' = true ->
  (fst (analyze_resume U cos_sim model text keywords)
   <= fst (analyze_resume U cos_sim model text' keywords))%Z.
Proof.
  intros Hsub.
  change (matches_of U cos_sim model text keywords
          <= matches_of U cos_sim model text' keywords)%Z.
  rewrite !matches_length. apply inj_le.
  induction keywords as [|k ks IH]; [reflexivity|]. cbn [filter].
  destruct (str_in k text) eqn:E.
  - rewrite (str_in_trans _ _ _ E Hsub). cbn [length]. lia.
  - destruct (str_in k text'); cbn [length]; lia.
Qed.

End MatchCount.

(** The test [len(word) > 3] of line 107 never rejects a word: all that
    [re.findall(r'\w{4,}', ...)] returns has four characters or more, so
    the keywords are the title and every match of the regex. *)
Theorem length_test_is_redundant (U : unicode_db) (title desc : pystr) :
  job_keywords U title desc = title :: re_findall_w4 U desc.
Proof.
  unfold job_keywords. cbn [app]. f_equal.
  assert (H : forall l : list pystr,
            Forall (fun w => 4 <= length w) l ->
            filter (fun word => 3 <? length word) l = l).
  { induction 1 as [|w l Hw _ IH]; [reflexivity|]. cbn [filter].
    replace (3 <? length w) with true by (symmetry; apply Nat.ltb_lt; lia).
    now rewrite IH. }
  apply H. apply Forall_forall. intros w Hw. unfold re_findall_w4 in Hw.
  apply re_findall_run_matches in Hw. tauto.
Qed.

(* ===================================================================== *)
(** * [normalize_text]                                                    *)
(* ===================================================================== *)

Lemma ascii_ignore_is_ascii (s : pystr) : is_ascii (ascii_ignore s) = true.
Proof.
  unfold is_ascii, ascii_ignore. apply forallb_forall. intros c Hc.
  apply filter_In in Hc. tauto.
Qed.

Lemma lower_char_not_upper (c : char) :
  N.ltb c 128 = true -> ascii_not_upper (AsciiDb.lower_char c) = true.
Proof.
  intros Hc. apply N.ltb_lt in Hc.
  unfold ascii_not_upper, AsciiDb.lower_char, AsciiDb.in_range.
  destruct (N.leb 65 c) eqn:E1; destruct (N.leb c 90) eqn:E2; cbn [andb];
    try apply N.leb_le in E1; try apply N.leb_gt in E1;
    try apply N.leb_le in E2; try apply N.leb_gt in E2;
    apply andb_true_iff; split;
    try (apply N.ltb_lt; lia);
    apply negb_true_iff; apply andb_false_iff;
    try (left; apply N.leb_gt; lia); right; apply N.leb_gt; lia.
Qed.

Lemma lower_char_fixed (c : char) :
  ascii_not_upper c = true -> AsciiDb.lower_char c = c.
Proof.
  unfold ascii_not_upper, AsciiDb.lower_char. intros H.
  apply andb_true_iff in H. destruct H as [_ H]. apply negb_true_iff in H.
  now rewrite H.
Qed.

Section NormalizeFacts.

Variable U : unicode_db.
Variable nfkd : pystr -> pystr.

(** When the runtime lowers ASCII text letter by letter, the normalized
    text has only ASCII characters and no upper-case letter. *)
Theorem normalize_text_is_ascii_lowercase (text : pystr) :
  lowers_ascii U ->
  forallb ascii_not_upper (normalize_text U nfkd text) = true.
Proof.
  intros HU. unfold normalize_text, lower. cbv zeta.
  rewrite (HU _ (ascii_ignore_is_ascii (nfkd text))).
  apply forallb_forall. intros c Hc. apply in_map_iff in Hc.
  destruct Hc as [d [<- Hd]]. apply lower_char_not_upper.
  unfold ascii_ignore in Hd. apply filter_In in Hd. tauto.
Qed.

(** When moreover NFKD leaves ASCII text as it is, normalizing twice is
    normalizing once. *)
Theorem normalize_text_is_idempotent (text : pystr) :
  lowers_ascii U -> keeps_ascii nfkd ->
  normalize_text U nfkd (normalize_text U nfkd text) = normalize_text U nfkd text.
Proof.
  intros HU Hn.
  pose proof (normalize_text_is_ascii_lowercase text HU) as Hlow.
  set (t := normalize_text U nfkd text) in *.
  assert (Hascii : is_ascii t = true).
  { unfold is_ascii. rewrite forallb_forall in Hlow |- *. intros c Hc.
    specialize (Hlow c Hc). unfold ascii_not_upper in Hlow.
    apply andb_true_iff in Hlow. tauto. }
  unfold normalize_text at 1. cbv zeta. rewrite (Hn t Hascii).
  assert (Hkeep : ascii_ignore t = t).
  { unfold ascii_ignore. unfold is_ascii in Hascii.
    clear Hlow. induction t as [|c t IH]; [reflexivity|].
    cbn [forallb] in Hascii. apply andb_true_iff in Hascii.
    destruct Hascii as [Hc Ht]. cbn [filter]. rewrite Hc. now rewrite IH. }
  rewrite Hkeep. unfold lower. rewrite (HU t Hascii).
  clear Hkeep Hascii. induction t as [|c t IH]; [reflexivity|].
  cbn [forallb] in Hlow. apply andb_true_iff in Hlow. destruct Hlow as [Hc Ht].
  cbn [map]. now rewrite (lower_char_fixed c Hc), IH.
Qed.

End NormalizeFacts.

(* ===================================================================== *)
(** * [render_document]                                                   *)
(* ===================================================================== *)

(** For a type other than "pdf" the preview always fails: the function
    returns [None] after one warning, renders no page and, when it created
    the temporary file, warns that the name convert is not defined and
    leaves that file in place. *)
Theorem docx_preview_always_fails (image : Type) (R : renderer image)
    (file_path file_type : pystr) :
  str_eqb file_type (str "pdf") = false ->
  fst (render_document R file_path file_type) = None
  /\ (forall path, ~ In (page_rendered path)
                        (snd (render_document R file_path file_type)))
  /\ (forall path, ~ In (temp_unlinked path)
                        (snd (render_document R file_path file_type)))
  /\ ((exists e,
         named_temporary_file R (str ".pdf") = Raised e
         /\ snd (render_document R file_path file_type) = [render_warning e])
      \/ (exists temp_path,
            named_temporary_file R (str ".pdf") = Done temp_path
            /\ snd (render_document R file_path file_type)
               = [temp_created temp_path;
                  render_warning (str "name 'convert' is not defined")])).
Proof.
  intros Htype. unfold render_document. rewrite Htype.
  destruct (named_temporary_file R (str ".pdf")) as [temp_path|e];
    cbn [convert fst snd].
  - split; [reflexivity|]. split; [|split].
    + intros path [H|[H|[]]]; discriminate.
    + intros path [H|[H|[]]]; discriminate.
    + right. now exists temp_path.
  - split; [reflexivity|]. split; [|split].
    + intros path [H|[]]; discriminate.
    + intros path [H|[]]; discriminate.
    + left. now exists e.
Qed.

(* ===================================================================== *)
(** * The properties above on concrete runs                               *)
(* ===================================================================== *)

Lemma pdf_without_text_witness :
  fst (process_file AsciiDb.db Demo.second_empty (str "/cv/b.pdf") (str "pdf")) = [].
Proof.
  apply (@pdf_without_text_yields_empty AsciiDb.db pystr Demo.second_empty
           (str "/cv/b.pdf") [None]); reflexivity.
Defined.

Lemma basename_witness :
  basename (path_join (str "/cv") (str "a.pdf")) = str "a.pdf".
Proof.
  apply (@basename_of_joined_path (str "/cv") (str "a.pdf")). reflexivity.
Defined.




Lemma ranking_never_empty_witness :
  ranked_list (snd (main AsciiDb.db (Demo.similarity Demo.b_scores_one)
                      Demo.three_pdfs Demo.dev_inputs)) <> [].
Proof.
  apply (@ranking_is_never_empty AsciiDb.db pystr
           (Demo.similarity Demo.b_scores_one) Demo.three_pdfs Demo.dev_inputs).
  reflexivity.
Defined.



Lemma stricter_thresholds_witness :
  incl (ranked_list (snd (main AsciiDb.db (Demo.similarity Demo.b_scores_one)
                            Demo.three_pdfs Thresholds.strict)))
       (ranked_list (snd (main AsciiDb.db (Demo.similarity Demo.b_scores_one)
                            Demo.three_pdfs Demo.dev_inputs))).
Proof.
  apply (@stricter_thresholds_rank_fewer AsciiDb.db pystr
           (Demo.similarity Demo.b_scores_one) Demo.three_pdfs
           Demo.dev_inputs Thresholds.strict).
  - repeat split.
  - reflexivity.
  - reflexivity.
Defined.


Lemma resorting_witness :
  sorted Score true
    (ranked_list (snd (main AsciiDb.db (Demo.similarity Demo.b_scores_one)
                         Demo.three_pdfs Demo.dev_inputs)))
  = ranked_list (snd (main AsciiDb.db (Demo.similarity Demo.b_scores_one)
                        Demo.three_pdfs Demo.dev_inputs)).
Proof.
  apply (@ranking_is_stable_under_resorting AsciiDb.db pystr
           (Demo.similarity Demo.b_scores_one) Demo.three_pdfs Demo.dev_inputs).
  reflexivity.
Defined.

Lemma match_count_grows_witness :
  (fst (analyze_resume AsciiDb.db Demo.probe Demo.model (str "Dev")
          [str "Dev"; str "Python"])
   <= fst (analyze_resume AsciiDb.db Demo.probe Demo.model (str "Dev, Python")
             [str "Dev"; str "Python"]))%Z.
Proof.
  apply (@match_count_grows_with_text AsciiDb.db pystr Demo.probe Demo.model
           (str "Dev") (str "Dev, Python")). reflexivity.
Defined.

Lemma normalize_text_witness :
  forallb ascii_not_upper
    (normalize_text AsciiDb.db (fun s => s) (str "Analista de DADOS")) = true.
Proof.
  apply (@normalize_text_is_ascii_lowercase AsciiDb.db (fun s => s)).
  intros s _. reflexivity.
Defined.

Lemma normalize_twice_witness :
  normalize_text AsciiDb.db (fun s => s)
    (normalize_text AsciiDb.db (fun s => s) (str "Analista de DADOS"))
  = normalize_text AsciiDb.db (fun s => s) (str "Analista de DADOS").
Proof.
  apply (@normalize_text_is_idempotent AsciiDb.db (fun s => s)).
  - intros s _. reflexivity.
  - intros s _. reflexivity.
Defined.

Lemma docx_preview_witness :
  fst (render_document Preview.services (str "/cv/cv.docx") (str "docx")) = None.
Proof.
  apply (@docx_preview_always_fails unit Preview.services (str "/cv/cv.docx")
           (str "docx")). reflexivity.
Defined.
